(** * nango: the firmware call protocol, embedded in Rocq

    A shallow embedding of [firmware.go] (connection, codec, call
    dispatcher and typed facade helpers) and of the I2C facade built
    on it, followed by the properties established about them.

    Conventions.
    - A Go [string] is a [string]; a Go [[]byte] is a [list byte];
      [[]byte(s)] is [list_byte_of_string s].
    - A Go [int] is a [Z] in the 64-bit range; arithmetic on it wraps
      through [wrap].
    - A Go [error] is an [option error]: [None] is [nil].
    - A method on [*FirmwareConnection] is a function that takes the
      connection's state and returns its results with the new state. *)

From Stdlib Require Import String Ascii List ZArith Lia Bool Arith.
From Stdlib Require Import DecimalString Decimal DecimalZ Permutation.
From Stdlib.Strings Require Import Byte.
Import ListNotations.

Open Scope string_scope.
Open Scope list_scope.
Open Scope nat_scope.

(** ** Go values and errors *)

Set Warnings "-register-all".

(** The dynamic values an [interface{}] argument can hold. [Other]
    stands for a value of any further concrete type, identified by the
    name [%T] prints for it. *)
Inductive value : Type :=
| Nil
| Str (s : string)
| Int (z : Z)
| Bool (b : bool)
| Slice (ls : list value)
| Uint8 (b : byte)
| Other (typ : string).

(** What [fmt]'s [%T] prints for a value. *)
Definition typeName (v : value) : string :=
  match v with
  | Nil => "<nil>"
  | Str _ => "string"
  | Int _ => "int"
  | Bool _ => "bool"
  | Slice _ => "[]interface {}"
  | Uint8 _ => "uint8"
  | Other typ => typ
  end.

Inductive error : Type :=
| errorString (msg : string)
| SerialTimeoutError (msg : string)
| i2cCommunicationError (c : Z)
| NumError (func num msg : string).

Definition isNil (e : option error) : bool :=
  match e with None => true | Some _ => false end.

(** [int] arithmetic: two's complement on 64 bits. *)
Definition wrap (z : Z) : Z := ((z + 2 ^ 63) mod 2 ^ 64 - 2 ^ 63)%Z.

(** [strconv.Itoa]. *)
Definition Itoa (z : Z) : string := NilZero.string_of_int (Z.to_int z).

Definition NUL : string := String "000"%char EmptyString.

Definition LF : string := String "010"%char EmptyString.

(** ** The serial port *)

(** The outcome of one line scan racing the read timer: a line, a device
    error, or nothing before [ReadTimeout]. *)
Inductive scanOutcome : Type :=
| Token (line : list byte)
| ScanErr (msg : string)
| Quiet.

(** Modelled from the spec: the [serial] package is not among the sources.
    A port is the device behind it: the bytes it received, how often it
    was flushed, whether it was released, the errors it answers writes,
    flushes and closes with ([None] for a device that works), and the
    outcomes of the line scans still to come. *)
Record Port : Type := mkPort {
  sent : list byte;
  flushed : nat;
  released : bool;
  writeFault : option error;
  flushFault : option error;
  closeFault : option error;
  inbound : list scanOutcome
}.

Definition errClosed : error := errorString "file already closed".

Definition withSent (l : list byte) (p : Port) : Port :=
  mkPort l (flushed p) (released p) (writeFault p)
         (flushFault p) (closeFault p) (inbound p).

(** Modelled from the spec: [Port.Write], not among the sources. A device
    that works takes the bytes whole. *)
Definition portWrite (b : list byte) (p : Port) : (nat * option error) * Port :=
  if released p then ((0, Some errClosed), p)
  else match writeFault p with
       | Some e => ((0, Some e), p)
       | None => ((List.length b, None), withSent (sent p ++ b) p)
       end.

(** Modelled from the spec: [Port.Flush], not among the sources. *)
Definition portFlush (p : Port) : option error * Port :=
  (if released p then Some errClosed else flushFault p,
   mkPort (sent p) (S (flushed p)) (released p) (writeFault p)
          (flushFault p) (closeFault p) (inbound p)).

(** Modelled from the spec: [Port.Close], not among the sources; it
    releases the device. *)
Definition portClose (p : Port) : option error * Port :=
  if released p then (Some errClosed, p)
  else (closeFault p,
        mkPort (sent p) (flushed p) true (writeFault p)
               (flushFault p) (closeFault p) (inbound p)).

(** One [bufio.Scanner] scan racing the read timer: the next outcome of
    the line; a line with no outcome left stays quiet. *)
Definition portScan (p : Port) : scanOutcome * Port :=
  match inbound p with
  | [] => (Quiet, p)
  | o :: rest =>
      (o, mkPort (sent p) (flushed p) (released p) (writeFault p)
                 (flushFault p) (closeFault p) rest)
  end.

(** ** [bufio.Writer] *)

Definition defaultBufSize : nat := 4096.

Record Writer : Type := mkWriter {
  buf : list byte;
  sticky : option error
}.

Definition newWriter : Writer := mkWriter [] None.

Definition Available (w : Writer) : nat := defaultBufSize - List.length (buf w).

Definition ErrShortWrite : error := errorString "short write".

Definition bufioFlush (w : Writer) (p : Port) : option error * Writer * Port :=
  match sticky w with
  | Some e => (Some e, w, p)
  | None =>
      if List.length (buf w) =? 0 then (None, w, p)
      else
        let '((n, err), p1) := portWrite (buf w) p in
        let err := if (n <? List.length (buf w)) && isNil err
                   then Some ErrShortWrite else err in
        match err with
        | Some e => (Some e, mkWriter (skipn n (buf w)) (Some e), p1)
        | None => (None, mkWriter [] None, p1)
        end
  end.

(** The loop of [Writer.Write]: while the data does not fit and no error
    is pending, either hand it to the device directly (empty buffer) or
    fill the buffer and flush it. The device takes a write whole or not at
    all, so the loop is over after two turns ([bufioWriteLoop_settles]). *)
Fixpoint bufioWriteLoop (fuel : nat) (b : list byte) (w : Writer) (p : Port)
  : list byte * Writer * Port :=
  match fuel with
  | O => (b, w, p)
  | S fuel' =>
      if (Available w <? List.length b) && isNil (sticky w) then
        if List.length (buf w) =? 0 then
          let '((n, err), p1) := portWrite b p in
          bufioWriteLoop fuel' (skipn n b) (mkWriter (buf w) err) p1
        else
          let n := Nat.min (Available w) (List.length b) in
          let '(_, w1, p1) :=
            bufioFlush (mkWriter (buf w ++ firstn n b) (sticky w)) p in
          bufioWriteLoop fuel' (skipn n b) w1 p1
      else (b, w, p)
  end.

Definition bufioWrite (b : list byte) (w : Writer) (p : Port)
  : option error * Writer * Port :=
  let '(rest, w1, p1) := bufioWriteLoop 2 b w p in
  match sticky w1 with
  | Some e => (Some e, w1, p1)
  | None => (None, mkWriter (buf w1 ++ rest) None, p1)
  end.

(** ** FirmwareConnection *)

Record Config : Type := mkConfig {
  Name : string;
  Baud : Z
}.

Record FirmwareConnection : Type := mkConn {
  readWriter : Writer;
  SerialConfig : Config;
  SleepAfterConnect : Z;
  ReadTimeout : Z;
  port : option Port
}.

(** A method of the connection: a state transformer. *)
Definition Conn (A : Type) : Type := FirmwareConnection -> A * FirmwareConnection.

Definition setIO (w : Writer) (p : Port) (s : FirmwareConnection) : FirmwareConnection :=
  mkConn w (SerialConfig s) (SleepAfterConnect s) (ReadTimeout s) (Some p).

Definition setPort (p : Port) (s : FirmwareConnection) : FirmwareConnection :=
  mkConn (readWriter s) (SerialConfig s) (SleepAfterConnect s) (ReadTimeout s) (Some p).

Definition second : Z := 1000000000.

Definition NewFirmwareConnection (serialConf : Config) : FirmwareConnection :=
  mkConn newWriter serialConf 0 (2 * second) None.

(** [Open]. What [serial.OpenPort] returned is the parameter [opened]:
    an error and no port, or a port. [time.Sleep] leaves the state as it
    is. *)
Definition Open (opened : error + Port) : Conn (option error) := fun s =>
  match opened with
  | inl err =>
      (Some err,
       mkConn (readWriter s) (SerialConfig s) (SleepAfterConnect s) (ReadTimeout s) None)
  | inr p =>
      let (err, p1) := portFlush p in
      (err, setIO newWriter p1 s)
  end.

Definition portClosed : error :=
  errorString "port is not opened: must call Open() first".

Definition Write (b : list byte) : Conn (option error) := fun s =>
  match port s with
  | None => (Some portClosed, s)
  | Some p =>
      let '(err, w, p1) := bufioWrite b (readWriter s) p in
      match err with
      | Some e => (Some e, setIO w p1 s)
      | None => (None, setIO w p1 s)
      end
  end.

Definition Flush : Conn (option error) := fun s =>
  match port s with
  | None => (Some portClosed, s)
  | Some p =>
      let '(err, w, p1) := bufioFlush (readWriter s) p in
      (err, setIO w p1 s)
  end.

(** [ReadLine]. The goroutine that scans and the [select] between its
    channel and [time.After(ReadTimeout)] are the scan outcome the port
    delivers: [Quiet] is the timer winning. The flush error is only
    logged. *)
Definition ReadLine : Conn (list byte * option error) := fun s =>
  match port s with
  | None => (([], Some portClosed), s)
  | Some p =>
      let (outcome, p1) := portScan p in
      let err :=
        match outcome with
        | Token _ => None
        | ScanErr e =>
            Some (errorString ("error scanning bytes from port "
                               ++ Name (SerialConfig s) ++ LF ++ ": " ++ e))
        | Quiet =>
            Some (SerialTimeoutError (Name (SerialConfig s) ++ " ReadLine timeout"))
        end in
      match err with
      | Some e =>
          let (_, p2) := portFlush p1 in
          (([], Some e), setPort p2 s)
      | None =>
          ((match outcome with Token b => b | _ => [] end, None), setPort p1 s)
      end
  end.

Definition FlushPort : Conn (option error) := fun s =>
  match port s with
  | None => (Some portClosed, s)
  | Some p =>
      let (err, p1) := portFlush p in
      (err, setPort p1 s)
  end.

Definition Close : Conn (option error) := fun s =>
  match port s with
  | None => (None, s)
  | Some p =>
      let (err, p1) := portClose p in
      (err, setPort p1 s)
  end.

(** ** Codec and dispatcher *)

Definition write (data : value) : Conn (option error) := fun conn =>
  let s : error + string :=
    match data with
    | Str v => inr v
    | Int v => inr (Itoa v)
    | Bool v => inr (if v then "True" else "False")
    | _ => inl (errorString ("Firmware Write: Unsupported type " ++ typeName data))
    end in
  match s with
  | inl e => (Some e, conn)
  | inr s => Write (list_byte_of_string (s ++ NUL)) conn
  end.

Definition returnValue : Conn (string * option error) := fun conn =>
  let '((b, err), conn1) := ReadLine conn in
  match err with
  | Some e => (("", Some e), conn1)
  | None => ((string_of_list_byte b, None), conn1)
  end.

(** The flattening loop of [call]: [toprint] and the counter [nel]. *)
Definition keep (acc : list value * Z) (el : value) : list value * Z :=
  match el with
  | Nil => acc
  | _ => (fst acc ++ [el], wrap (snd acc + 1))
  end.

Definition flattenArg (acc : list value * Z) (arg : value) : list value * Z :=
  match arg with
  | Slice ls => fold_left keep ls acc
  | _ => keep acc arg
  end.

Definition flattenLoop (args : list value) : list value * Z :=
  fold_left flattenArg args ([], 0%Z).

Definition flatten (args : list value) : list value := fst (flattenLoop args).

(** The loop writing the flattened arguments, left at the first error. *)
Fixpoint writeEach (toprint : list value) : Conn (option error) := fun conn =>
  match toprint with
  | [] => (None, conn)
  | elprint :: rest =>
      let (err, conn1) := write elprint conn in
      match err with
      | Some e => (Some e, conn1)
      | None => writeEach rest conn1
      end
  end.

(** [call], between [mutex.Lock()] and the deferred [mutex.Unlock()]. *)
Definition call (namespace : string) (id : Z) (args : list value)
  : Conn (string * option error) := fun conn =>
  let (err, conn) := write (Str namespace) conn in
  match err with
  | Some e => (("", Some e), conn)
  | None =>
  let (err, conn) := write (Int id) conn in
  match err with
  | Some e => (("", Some e), conn)
  | None =>
  let (toprint, nel) := flattenLoop args in
  let (err, conn) := write (Int (wrap (nel - 1))) conn in
  match err with
  | Some e => (("", Some e), conn)
  | None =>
  let (err, conn) := writeEach toprint conn in
  match err with
  | Some e => (("", Some e), conn)
  | None =>
  let (err, conn) := Flush conn in
  match err with
  | Some e => (("", Some e), conn)
  | None => returnValue conn
  end end end end end.

(** [append(args, 0)], [copy(args[1:], args)], [args[0] = name]. *)
Definition prependName (args : list value) (name : string) : list value :=
  let args1 := args ++ [Int 0] in
  let args2 := firstn 1 args1 ++ firstn (length args1 - 1) args1 in
  Str name :: skipn 1 args2.

Record FirmwareClass : Type := mkClass {
  Id : Z;
  Namespace : string
}.

(** The variadic [args] arrive as one slice. *)
Definition ArduinoMethodCall (f : FirmwareClass) (methodName : string)
  (args : list value) : Conn (string * option error) :=
  call (Namespace f) (Id f) (prependName args methodName).

Definition NewArduinoApi : FirmwareClass := mkClass 0 "A".

(** ** Typed facade helpers *)

(** [strconv.Atoi]: an optional sign, then one or more decimal digits;
    a value outside the 64-bit range is clamped and reported. *)
Definition isDigit (c : ascii) : bool :=
  (48 <=? nat_of_ascii c) && (nat_of_ascii c <=? 57).

Fixpoint digitsValue (s : string) (acc : Z) : option Z :=
  match s with
  | EmptyString => Some acc
  | String c r =>
      if isDigit c
      then digitsValue r (10 * acc + Z.of_nat (nat_of_ascii c - 48))%Z
      else None
  end.

Definition ErrSyntax : string := "invalid syntax".
Definition ErrRange : string := "value out of range".

Definition Atoi (s : string) : Z * option error :=
  let '(neg, body) :=
    match s with
    | String "-"%char r => (true, r)
    | String "+"%char r => (false, r)
    | _ => (false, s)
    end in
  match body with
  | EmptyString => (0%Z, Some (NumError "Atoi" s ErrSyntax))
  | _ =>
      match digitsValue body 0 with
      | None => (0%Z, Some (NumError "Atoi" s ErrSyntax))
      | Some n =>
          let v := if neg then (- n)%Z else n in
          if (v <? - 2 ^ 63)%Z then ((- 2 ^ 63)%Z, Some (NumError "Atoi" s ErrRange))
          else if (2 ^ 63 - 1 <? v)%Z then ((2 ^ 63 - 1)%Z, Some (NumError "Atoi" s ErrRange))
          else (v, None)
      end
  end.

(** A Go function that may panic instead of returning. *)
Inductive outcome (A : Type) : Type :=
| Returns (a : A)
| Panics (msg : string).

Arguments Returns {A} a.
Arguments Panics {A} msg.

Definition classCall (f : FirmwareClass) (methodName : string) (args : list value)
  : Conn (string * option error) :=
  ArduinoMethodCall f methodName [Slice args].

(** [s[0]] is evaluated whatever [err] is. *)
Definition CallAndReturnByte (f : FirmwareClass) (methodName : string)
  (args : list value) : Conn (outcome (byte * option error)) := fun conn =>
  let '((s, err), conn1) := ArduinoMethodCall f methodName [Slice args] conn in
  match list_byte_of_string s with
  | [] => (Panics "runtime error: index out of range [0] with length 0", conn1)
  | s0 :: _ => (Returns (s0, err), conn1)
  end.

Definition CallAndReturnInt (f : FirmwareClass) (methodName : string)
  (args : list value) : Conn (Z * option error) := fun conn =>
  let '((s, err), conn1) := ArduinoMethodCall f methodName [Slice args] conn in
  match err with
  | Some e => (((-1)%Z, Some e), conn1)
  | None => (Atoi s, conn1)
  end.

Definition CallAndReturnNothing (f : FirmwareClass) (methodName : string)
  (args : list value) : Conn (option error) := fun conn =>
  let '((_, err), conn1) := ArduinoMethodCall f methodName [Slice args] conn in
  (err, conn1).

(** ** The I2C facade *)

Definition I2CAddress : Type := Z.

(** The method [Value] of an [I2CAddress] pointer; [None] is the nil pointer. *)
Definition Value (addr : option I2CAddress) : value :=
  match addr with
  | Some a => Int a
  | None => Nil
  end.

Definition NewWire : FirmwareClass := mkClass 0 "Wire".

Definition Begin (w : FirmwareClass) (address : option I2CAddress)
  : Conn (option error) :=
  CallAndReturnNothing w "begin" [Value address].

Definition BeginTransmission (w : FirmwareClass) (address : I2CAddress)
  : Conn (option error) := fun conn =>
  let '((_, err), conn1) := classCall w "beginTransmission" [Value (Some address)] conn in
  (err, conn1).

Definition EndTransmission (w : FirmwareClass) (stop : bool)
  : Conn (Z * option error) :=
  CallAndReturnInt w "endTransmission" [Bool stop].

(** [wire.Write]: one call per byte, the index of the byte reached and
    the first error. *)
Fixpoint wireWriteFrom (w : FirmwareClass) (i : Z) (b : list byte)
  : Conn (Z * option error) := fun conn =>
  match b with
  | [] => ((i, None), conn)
  | v :: rest =>
      let (err, conn1) := CallAndReturnNothing w "write" [Uint8 v] conn in
      match err with
      | Some e => ((i, Some e), conn1)
      | None =>
          match rest with
          | [] => ((i, None), conn1)
          | _ => wireWriteFrom w (i + 1)%Z rest conn1
          end
      end
  end.

Definition wireWrite (w : FirmwareClass) (b : list byte) : Conn (Z * option error) :=
  wireWriteFrom w 0%Z b.

Record i2cbase : Type := mkBase {
  wire : FirmwareClass;
  Address : option I2CAddress;
  busInitialized : bool
}.

Definition newI2cBase (w : FirmwareClass) (address : option I2CAddress) : i2cbase :=
  mkBase w address false.

Definition begin (b : i2cbase) : Conn (option error) := fun conn =>
  if negb (busInitialized b) then Begin (wire b) (Address b) conn
  else (None, conn).

Definition I2CMaster : Type := i2cbase.

Definition NewI2cMaster (w : FirmwareClass) : I2CMaster := newI2cBase w None.

Definition Send (m : I2CMaster) (address : I2CAddress) (data : list byte)
  : Conn (option error) := fun conn =>
  let (err, conn) := begin m conn in
  match err with
  | Some e => (Some e, conn)
  | None =>
  let (err, conn) := BeginTransmission (wire m) address conn in
  match err with
  | Some _ => (None, conn)
  | None =>
  let '((_, err), conn) := wireWrite (wire m) data conn in
  match err with
  | Some e => (Some e, conn)
  | None =>
  let '((c, err), conn) := EndTransmission (wire m) true conn in
  match err with
  | Some e => (Some e, conn)
  | None =>
  if negb (c =? 0)%Z then (Some (i2cCommunicationError c), conn)
  else (None, conn)
  end end end end.

(** ** Concurrent callers

    Every caller runs [call] to completion, one statement at a time:
    [mutex.Lock()], the writes of the fields, [Flush], the read of the
    reply, and the deferred [mutex.Unlock()]. The connections live in a
    store addressed by pointer; the scheduler picks which caller moves
    next. A caller picked while it waits for the lock, or after it has
    returned, stays where it is. *)

Record job : Type := mkJob {
  jNamespace : string;
  jId : Z;
  jArgs : list value;
  jConn : nat
}.

Inductive pc : Type :=
| AtLock
| Writing (pending : list value)
| AtRead
| AtUnlock (v : string) (err : option error)
| Done (v : string) (err : option error).

Record config : Type := mkCfg {
  mutex : bool;
  conns : nat -> FirmwareConnection;
  pcs : nat -> pc
}.

Definition upd {A : Type} (f : nat -> A) (i : nat) (x : A) : nat -> A :=
  fun j => if j =? i then x else f j.

Definition request (j : job) : list value :=
  let (toprint, nel) := flattenLoop (jArgs j) in
  Str (jNamespace j) :: Int (jId j) :: Int (wrap (nel - 1)) :: toprint.

Definition step (jobs : list job) (t : nat) (cfg : config) : config :=
  match nth_error jobs t with
  | None => cfg
  | Some j =>
      let c := jConn j in
      match pcs cfg t with
      | AtLock =>
          if mutex cfg then cfg
          else mkCfg true (conns cfg) (upd (pcs cfg) t (Writing (request j)))
      | Writing (v :: pending) =>
          let (err, conn) := write v (conns cfg c) in
          mkCfg (mutex cfg) (upd (conns cfg) c conn)
            (upd (pcs cfg) t
               match err with
               | Some e => AtUnlock "" (Some e)
               | None => Writing pending
               end)
      | Writing [] =>
          let (err, conn) := Flush (conns cfg c) in
          mkCfg (mutex cfg) (upd (conns cfg) c conn)
            (upd (pcs cfg) t
               match err with
               | Some e => AtUnlock "" (Some e)
               | None => AtRead
               end)
      | AtRead =>
          let '((v, err), conn) := returnValue (conns cfg c) in
          mkCfg (mutex cfg) (upd (conns cfg) c conn)
            (upd (pcs cfg) t (AtUnlock v err))
      | AtUnlock v err =>
          mkCfg false (conns cfg) (upd (pcs cfg) t (Done v err))
      | Done _ _ => cfg
      end
  end.

(** A schedule is the list of the callers picked, one step each. *)
Fixpoint run (jobs : list job) (sched : list nat) (cfg : config) : config :=
  match sched with
  | [] => cfg
  | t :: rest => run jobs rest (step jobs t cfg)
  end.

Definition start (store : nat -> FirmwareConnection) : config :=
  mkCfg false store (fun _ => AtLock).

Definition callOn (j : job) (store : nat -> FirmwareConnection)
  : (string * option error) * (nat -> FirmwareConnection) :=
  let (r, conn) := call (jNamespace j) (jId j) (jArgs j) (store (jConn j)) in
  (r, upd store (jConn j) conn).

Fixpoint seqRun (jobs : list job) (order : list nat) (store : nat -> FirmwareConnection)
  : list (string * option error) * (nat -> FirmwareConnection) :=
  match order with
  | [] => ([], store)
  | t :: rest =>
      match nth_error jobs t with
      | None => seqRun jobs rest store
      | Some j =>
          let (r, store1) := callOn j store in
          let (rs, store2) := seqRun jobs rest store1 in
          (r :: rs, store2)
      end
  end.

Definition finish (at_ : pc) : Conn (string * option error) := fun conn =>
  match at_ with
  | Writing pending =>
      let (err, conn) := writeEach pending conn in
      match err with
      | Some e => (("", Some e), conn)
      | None =>
          let (err, conn) := Flush conn in
          match err with
          | Some e => (("", Some e), conn)
          | None => returnValue conn
          end
      end
  | AtRead => returnValue conn
  | AtUnlock v err => ((v, err), conn)
  | Done v err => ((v, err), conn)
  | AtLock => (("", None), conn)
  end.

Definition inside (at_ : pc) : bool :=
  match at_ with
  | Writing _ | AtRead | AtUnlock _ _ => true
  | _ => false
  end.

Definition finished (r : string * option error) : pc := Done (fst r) (snd r).

Definition inv (jobs : list job) (store0 : nat -> FirmwareConnection) (cfg : config)
  (done : list nat) : Prop :=
  NoDup done /\
  (forall t, In t done -> t < List.length jobs) /\
  map (pcs cfg) done = map finished (fst (seqRun jobs done store0)) /\
  if mutex cfg then
    exists h j, nth_error jobs h = Some j /\ ~ In h done /\ inside (pcs cfg h) = true /\
      (forall t, t <> h -> ~ In t done -> pcs cfg t = AtLock) /\
      (forall i, i <> jConn j -> conns cfg i = snd (seqRun jobs done store0) i) /\
      finish (pcs cfg h) (conns cfg (jConn j))
      = call (jNamespace j) (jId j) (jArgs j) (snd (seqRun jobs done store0) (jConn j))
  else
    (forall t, ~ In t done -> pcs cfg t = AtLock) /\
    (forall i, conns cfg i = snd (seqRun jobs done store0) i).

(** ** Vocabulary of the statements *)

(** A device that takes what it is given. *)
Definition works (p : Port) : bool := negb (released p) && isNil (writeFault p).

(** An open connection over a working device, with no write error pending. *)
Definition ready (s : FirmwareConnection) : bool :=
  match port s with
  | Some p => works p && isNil (sticky (readWriter s))
  | None => false
  end.

(** Every byte the transport has accepted so far, in order: those the
    device received, then those still buffered. *)
Definition stream (s : FirmwareConnection) : list byte :=
  match port s with
  | Some p => sent p ++ buf (readWriter s)
  | None => []
  end.

Definition flushes (s : FirmwareConnection) : nat :=
  match port s with
  | Some p => flushed p
  | None => 0
  end.

Definition nonNil (v : value) : bool := match v with Nil => false | _ => true end.

Definition notSlice (v : value) : bool := match v with Slice _ => false | _ => true end.

(** What one argument contributes to the flattened list. *)
Definition spliced (arg : value) : list value :=
  match arg with
  | Slice ls => filter nonNil ls
  | _ => filter nonNil [arg]
  end.

(** Argument lists nested at most one level: no element of a list-valued
    argument is a list. *)
Definition shallow (args : list value) : bool :=
  forallb (fun arg => match arg with Slice ls => forallb notSlice ls | _ => true end) args.

Definition supported (v : value) : bool :=
  match v with Str _ | Int _ | Bool _ => true | _ => false end.

Definition text (v : value) : string :=
  match v with
  | Str s => s
  | Int z => Itoa z
  | Bool true => "True"
  | Bool false => "False"
  | _ => ""
  end.

(** One wire field: the text, then the terminator. *)
Definition field (s : string) : list byte := list_byte_of_string (s ++ NUL).

Definition fields (vs : list value) : list byte :=
  flat_map (fun v => field (text v)) vs.

Definition unsupported (v : value) : error :=
  errorString ("Firmware Write: Unsupported type " ++ typeName v).

(** The longest prefix of encodable values, and the value that ends it. *)
Fixpoint encodable (vs : list value) : list value :=
  match vs with
  | [] => []
  | v :: rest => if supported v then v :: encodable rest else []
  end.

Fixpoint offender (vs : list value) : option value :=
  match vs with
  | [] => None
  | v :: rest => if supported v then offender rest else Some v
  end.

(** The first three fields of a call: namespace, id, count. *)
Definition header (namespace : string) (id : Z) (args : list value) : list byte :=
  field namespace ++ field (Itoa id)
  ++ field (Itoa (wrap (wrap (Z.of_nat (List.length (flatten args))) - 1))).

(** The bytes one call hands to the transport. *)
Definition callBytes (namespace : string) (id : Z) (args : list value) : list byte :=
  header namespace id args ++ fields (encodable (flatten args)).

(** [s'] is [s] after the transport accepted [total] in all: only the
    device's received bytes and the write buffer differ. *)
Definition after (s : FirmwareConnection) (p : Port) (total : list byte)
  (s' : FirmwareConnection) : Prop :=
  exists l w, s' = setIO w (withSent l p) s /\ sticky w = None /\ l ++ buf w = total.

(** The byte runs of the calls made on connection [i], in the given order. *)
Definition runsOn (jobs : list job) (i : nat) (order : list nat) : list (list byte) :=
  flat_map (fun t =>
              match nth_error jobs t with
              | Some j =>
                  if jConn j =? i
                  then [callBytes (jNamespace j) (jId j) (jArgs j)]
                  else []
              | None => []
              end) order.

Definition allDone (jobs : list job) (cfg : config) : Prop :=
  forall t, t < List.length jobs -> exists v e, pcs cfg t = Done v e.

Definition millisecond : Z := 1000000.

(** ** Scenarios *)

Definition scenarioBytes : list byte :=
  ["A"; "000"; "0"; "000"; "2"; "000"; "d"; "w"; "000"; "1"; "3"; "000"; "1"; "000"]%byte.

Definition fakeFirmware (replies : list scanOutcome) : Port :=
  mkPort [] 0 false None None None replies.

Definition opened (replies : list scanOutcome) : FirmwareConnection :=
  snd (Open (inr (fakeFirmware replies))
         (mkConn newWriter (mkConfig "fake" 9600) 0 (50 * millisecond) None)).

(** A namespace longer than the write buffer. *)
Definition longName : string := string_of_list_ascii (repeat "A"%char 4500).

(** Two callers on two connections, picked in turn. *)
Definition twoCallers : list job :=
  [mkJob "A" 0 [Str "dw"; Slice [Str "13"; Int 1]] 0; mkJob "Wire" 0 [Str "begin"; Nil] 1].

Definition twoLines : nat -> FirmwareConnection :=
  fun _ => opened [Token (list_byte_of_string "ok")].

Definition inTurn : list nat :=
  concat (repeat [1; 0] 9) ++ repeat 0 9.

(** A device that refuses every write. *)
Definition brokenFirmware : Port :=
  mkPort [] 0 false (Some (errorString "input/output error")) None None [].

Definition openedOn (p : Port) : FirmwareConnection :=
  snd (Open (inr p) (mkConn newWriter (mkConfig "fake" 9600) 0 (50 * millisecond) None)).

(** ** ArduinoApi *)

Definition PinLow : Z := 0.
Definition PinHigh : Z := 1.

Definition PinInput : Z := 0.
Definition PinOutput : Z := 1.
Definition PinInputPullup : Z := 2.

Definition LsbFirst : Z := 0.
Definition MsbFirst : Z := 1.

Definition DigitalWrite (api : FirmwareClass) (pin : string) (val : Z)
  : Conn (option error) :=
  CallAndReturnNothing api "dw" [Str pin; Int val].

Definition DigitalRead (api : FirmwareClass) (pin : string) : Conn (Z * option error) :=
  CallAndReturnInt api "r" [Str pin].

(** [val] is not passed on. *)
Definition AnalogWrite (api : FirmwareClass) (pin : string) (val : Z)
  : Conn (option error) :=
  CallAndReturnNothing api "aw" [Str pin].

Definition AnalogRead (api : FirmwareClass) (pin : string) : Conn (Z * option error) :=
  CallAndReturnInt api "a" [Str pin].

Definition PinMode (api : FirmwareClass) (pin : string) (mode : Z)
  : Conn (option error) :=
  CallAndReturnNothing api "pm" [Str pin; Int mode].

Definition Millis (api : FirmwareClass) : Conn (Z * option error) :=
  CallAndReturnInt api "m" [].

Definition PulseIn (api : FirmwareClass) (pin : string) (val : Z)
  : Conn (Z * option error) :=
  CallAndReturnInt api "pi" [Str pin; Int val].

(** [val] is a [byte]. *)
Definition ShiftOut (api : FirmwareClass) (dataPin clockPin : string)
  (bitOrder : Z) (val : byte) : Conn (Z * option error) :=
  CallAndReturnInt api "s" [Str dataPin; Str clockPin; Int bitOrder; Uint8 val].

(** ** The rest of the I2C facade *)

(** [i2cCommunicationError.String]: an array of four messages indexed by
    [d-1]. *)
Definition i2cErrorString (d : Z) : outcome string :=
  match (d - 1)%Z with
  | 0%Z => Returns "data too long to fit in transmit buffer"
  | 1%Z => Returns "received NACK on transmit of address"
  | 2%Z => Returns "received NACK on transmit of data"
  | 3%Z => Returns "other error"
  | i => Panics ("runtime error: index out of range [" ++ Itoa i ++ "] with length 4")
  end.

Definition RequestFrom (w : FirmwareClass) (address : I2CAddress) (quantity : Z)
  (stop : bool) : Conn (Z * option error) :=
  CallAndReturnInt w "requestFrom" [Value (Some address); Int quantity; Bool stop].

(** [wire.Available]. *)
Definition wireAvailable (w : FirmwareClass) : Conn (Z * option error) :=
  CallAndReturnInt w "available" [].

(** [b[i] = v]. *)
Fixpoint setByte (b : list byte) (i : nat) (v : byte) : list byte :=
  match b, i with
  | [], _ => []
  | _ :: rest, O => v :: rest
  | x :: rest, S i' => x :: setByte rest i' v
  end.

(** [wire.Read]: the loop [for i = 0; i < len(b); i++], with [remaining]
    turns to go; the buffer as it was filled, the index reached and the
    error. *)
Fixpoint wireReadLoop (w : FirmwareClass) (remaining : nat) (i : nat) (b : list byte)
  : Conn (outcome (list byte * (Z * option error))) := fun conn =>
  match remaining with
  | O => (Returns (b, (Z.of_nat i, None)), conn)
  | S remaining' =>
      let (r, conn1) := CallAndReturnByte w "read" [] conn in
      match r with
      | Panics msg => (Panics msg, conn1)
      | Returns (_, Some e) => (Returns (b, (Z.of_nat i, Some e)), conn1)
      | Returns (v, None) => wireReadLoop w remaining' (S i) (setByte b i v) conn1
      end
  end.

Definition wireRead (w : FirmwareClass) (b : list byte)
  : Conn (outcome (list byte * (Z * option error))) :=
  wireReadLoop w (List.length b) 0 b.

(** [make([]byte, n)]: a negative length panics; running out of memory on
    a huge one is left out. *)
Definition makeBytes (n : Z) : outcome (list byte) :=
  if (n <? 0)%Z then Panics "runtime error: makeslice: len out of range"
  else Returns (repeat "000"%byte (Z.to_nat n)).

(** [I2CMaster.Request]. The error of [RequestFrom] is overwritten by that
    of [Read]; the comparison of [n] with [quantity] only logs. *)
Definition Request (m : I2CMaster) (address : I2CAddress) (quantity : Z)
  : Conn (outcome (list byte * option error)) := fun conn =>
  let (err, conn) := begin m conn in
  match err with
  | Some e => (Returns ([], Some e), conn)
  | None =>
  let '((n, _), conn) := RequestFrom (wire m) address quantity true conn in
  match makeBytes n with
  | Panics msg => (Panics msg, conn)
  | Returns buf =>
  let (r, conn) := wireRead (wire m) buf conn in
  match r with
  | Panics msg => (Panics msg, conn)
  | Returns (_, (_, Some e)) => (Returns ([], Some e), conn)
  | Returns (buf, (_, None)) => (Returns (buf, None), conn)
  end end end.

(** The loop of [Scan], [for i := 1; i <= 128; i++], with [remaining]
    turns to go. *)
Fixpoint scanLoop (m : I2CMaster) (remaining : nat) (i : Z) (addrs : list I2CAddress)
  : Conn (list I2CAddress * option error) := fun conn =>
  match remaining with
  | O => ((addrs, None), conn)
  | S remaining' =>
      let (err, conn1) := Send m i [] conn in
      match err with
      | Some (i2cCommunicationError _) => scanLoop m remaining' (i + 1)%Z addrs conn1
      | Some e => (([], Some e), conn1)
      | None => scanLoop m remaining' (i + 1)%Z (addrs ++ [i]) conn1
      end
  end.

Definition Scan (m : I2CMaster) : Conn (list I2CAddress * option error) := fun conn =>
  let (err, conn) := begin m conn in
  match err with
  | Some e => (([], Some e), conn)
  | None => scanLoop m 128 1%Z [] conn
  end.

Definition I2CSlave : Type := i2cbase.

Definition NewI2cSlave (w : FirmwareClass) (addr : I2CAddress) : I2CSlave :=
  newI2cBase w (Some addr).

(** [I2CSlave.Receive]: the bytes read are dropped. *)
Definition Receive (s : I2CSlave) : Conn (outcome (option error)) := fun conn =>
  let (err, conn) := begin s conn in
  match err with
  | Some e => (Returns (Some e), conn)
  | None =>
  let '((n, err), conn) := wireAvailable (wire s) conn in
  match err with
  | Some e => (Returns (Some e), conn)
  | None =>
  match makeBytes n with
  | Panics msg => (Panics msg, conn)
  | Returns buf =>
  let (r, conn) := wireRead (wire s) buf conn in
  match r with
  | Panics msg => (Panics msg, conn)
  | Returns (_, (_, err)) => (Returns err, conn)
  end end end end.

Definition slaveWrite (s : I2CSlave) (b : list byte) : Conn (Z * option error) := fun conn =>
  let (err, conn) := begin s conn in
  match err with
  | Some e => ((0%Z, Some e), conn)
  | None => wireWrite (wire s) b conn
  end.

(** ** More vocabulary *)

(** The head of a reply line, as [CallAndReturnByte] returns it. *)
Definition firstByte (line : list byte) : byte :=
  match line with
  | [] => "000"%byte
  | c :: _ => c
  end.

Definition nonEmpty (line : list byte) : bool :=
  match line with
  | [] => false
  | _ => true
  end.

Definition withInbound (q : list scanOutcome) (p : Port) : Port :=
  mkPort (sent p) (flushed p) (released p) (writeFault p)
         (flushFault p) (closeFault p) q.

Definition inboundOf (s : FirmwareConnection) : list scanOutcome :=
  match port s with
  | Some p => inbound p
  | None => []
  end.

(** The bytes of a facade method call: the name is the first argument. *)
Definition methodBytes (f : FirmwareClass) (methodName : string) (args : list value)
  : list byte :=
  callBytes (Namespace f) (Id f) (prependName [Slice args] methodName).

Definition inRange (z : Z) : Prop := (- 2 ^ 63 <= z < 2 ^ 63)%Z.

Fixpoint increasing (l : list Z) : Prop :=
  match l with
  | [] => True
  | x :: rest => (forall y, In y rest -> (x < y)%Z) /\ increasing rest
  end.

(** [s'] is [s] after a step that kept the connection ready, had the
    transport accept [bytes] more, left [q] to come on the line and flushed
    the port [k] times. *)
Definition settled (s s' : FirmwareConnection) (bytes : list byte)
  (q : list scanOutcome) (k : nat) : Prop :=
  ready s' = true
  /\ stream s' = stream s ++ bytes
  /\ inboundOf s' = q
  /\ flushes s' = flushes s + k
  /\ SerialConfig s' = SerialConfig s.

Definition timeoutOf (s : FirmwareConnection) : error :=
  SerialTimeoutError (Name (SerialConfig s) ++ " ReadLine timeout").

(** The value of a decimal numeral read left to right from [acc]. *)
Fixpoint uintValue (d : uint) (acc : Z) : Z :=
  match d with
  | Decimal.Nil => acc
  | D0 l => uintValue l (10 * acc + 0)
  | D1 l => uintValue l (10 * acc + 1)
  | D2 l => uintValue l (10 * acc + 2)
  | D3 l => uintValue l (10 * acc + 3)
  | D4 l => uintValue l (10 * acc + 4)
  | D5 l => uintValue l (10 * acc + 5)
  | D6 l => uintValue l (10 * acc + 6)
  | D7 l => uintValue l (10 * acc + 7)
  | D8 l => uintValue l (10 * acc + 8)
  | D9 l => uintValue l (10 * acc + 9)
  end%Z.

(** The requests of [k] byte reads in a row. *)
Fixpoint readBytes (w : FirmwareClass) (k : nat) : list byte :=
  match k with
  | O => []
  | S k' => methodBytes w "read" [] ++ readBytes w k'
  end.

(** * Properties *)

(** ** The device and the buffered writer *)

Lemma withSent_id p : withSent (sent p) p = p.
Proof. destruct p; reflexivity. Qed.

Lemma withSent_twice l l' p : withSent l (withSent l' p) = withSent l p.
Proof. reflexivity. Qed.

Lemma works_withSent l p : works (withSent l p) = works p.
Proof. reflexivity. Qed.

Lemma portWrite_works b p :
  works p = true -> portWrite b p = ((List.length b, None), withSent (sent p ++ b) p).
Proof.
  unfold works, portWrite. destruct (released p); [discriminate|].
  destruct (writeFault p); [discriminate|]. reflexivity.
Qed.

Lemma bufioFlush_works w p :
  sticky w = None -> works p = true ->
  bufioFlush w p = (None, mkWriter [] None, withSent (sent p ++ buf w) p).
Proof.
  intros Hs Hp. unfold bufioFlush. rewrite Hs.
  destruct (List.length (buf w) =? 0) eqn:E.
  - apply Nat.eqb_eq in E. apply length_zero_iff_nil in E.
    destruct w as [b s]; simpl in *; subst. rewrite app_nil_r, withSent_id. reflexivity.
  - rewrite portWrite_works by assumption. rewrite Nat.ltb_irrefl. reflexivity.
Qed.

Lemma bufioWrite_fits b w p :
  sticky w = None -> List.length (buf w) + List.length b <= defaultBufSize ->
  bufioWrite b w p = (None, mkWriter (buf w ++ b) None, p).
Proof.
  intros Hs Hfit. unfold bufioWrite, bufioWriteLoop.
  assert (E : (Available w <? List.length b) = false).
  { apply Nat.ltb_ge. unfold Available. lia. }
  rewrite E. simpl. rewrite Hs. reflexivity.
Qed.

Lemma ltb_0 n : (n <? 0) = false.
Proof. apply Nat.ltb_ge. lia. Qed.

Lemma bufioWrite_works b w p :
  sticky w = None -> works p = true ->
  exists l w', bufioWrite b w p = (None, w', withSent l p)
            /\ sticky w' = None
            /\ l ++ buf w' = sent p ++ buf w ++ b.
Proof.
  intros Hs Hp. unfold bufioWrite. cbn [bufioWriteLoop].
  rewrite Hs. cbn [isNil]. rewrite andb_true_r.
  destruct (Available w <? List.length b) eqn:E1.
  - destruct (List.length (buf w) =? 0) eqn:E2.
    + rewrite portWrite_works by assumption.
      rewrite skipn_all. cbn [List.length sticky isNil buf].
      rewrite Nat.ltb_irrefl || rewrite ltb_0.
      cbn. apply Nat.eqb_eq, length_zero_iff_nil in E2. rewrite E2.
      exists (sent p ++ b), (mkWriter [] None). repeat split.
      rewrite app_nil_r. reflexivity.
    + set (n := Nat.min (Available w) (List.length b)).
      rewrite bufioFlush_works by (try assumption; reflexivity).
      cbn [buf sticky isNil]. rewrite andb_true_r.
      destruct (Available (mkWriter [] None) <? List.length (skipn n b)) eqn:E3.
      * cbn [List.length Nat.eqb].
        rewrite portWrite_works by (rewrite works_withSent; assumption).
        rewrite skipn_all. cbn [sticky buf sent withSent].
        exists ((sent p ++ buf w ++ firstn n b) ++ skipn n b), (mkWriter [] None).
        repeat split. cbn [buf]. rewrite !app_nil_r, <- !app_assoc, firstn_skipn. reflexivity.
      * cbn [sticky buf].
        exists (sent p ++ buf w ++ firstn n b), (mkWriter (skipn n b) None).
        repeat split. cbn [buf]. rewrite <- !app_assoc, firstn_skipn. reflexivity.
  - cbn. rewrite Hs. exists (sent p), (mkWriter (buf w ++ b) None).
    rewrite withSent_id. repeat split.
Qed.

Lemma portWrite_cases b p :
  (portWrite b p = ((List.length b, None), withSent (sent p ++ b) p) /\ works p = true)
  \/ (exists e, portWrite b p = ((0, Some e), p) /\ works p = false).
Proof.
  unfold portWrite, works. destruct (released p); [right; eauto|].
  destruct (writeFault p) as [e|]; [right; eauto|left; auto].
Qed.

(** Two turns of the loop always suffice: after them the data fits or an
    error is pending. *)
Lemma bufioWriteLoop_settles b w p :
  let '(rest, w1, _) := bufioWriteLoop 2 b w p in
  (Available w1 <? List.length rest) && isNil (sticky w1) = false.
Proof.
  cbn [bufioWriteLoop].
  destruct ((Available w <? List.length b) && isNil (sticky w)) eqn:C; [|exact C].
  apply andb_true_iff in C. destruct C as [C1 C2].
  destruct (sticky w) as [e|] eqn:Hs; [discriminate|].
  destruct (List.length (buf w) =? 0) eqn:E.
  - destruct (portWrite_cases b p) as [[-> _]|(e & -> & _)].
    + rewrite skipn_all. cbn [List.length]. rewrite ltb_0. reflexivity.
    + cbn [skipn sticky isNil]. rewrite andb_false_r.
      cbn [sticky isNil]. apply andb_false_r.
  - unfold bufioFlush. cbn [sticky buf].
    set (full := buf w ++ firstn (Nat.min (Available w) (List.length b)) b).
    assert (Hfull : (List.length full =? 0) = false).
    { apply Nat.eqb_neq. apply Nat.eqb_neq in E. unfold full. rewrite length_app. lia. }
    rewrite Hfull.
    destruct (portWrite_cases full p) as [[-> Hw]|(e & -> & _)].
    + rewrite Nat.ltb_irrefl. cbn [andb sticky isNil buf].
      rewrite andb_true_r.
      destruct (Available (mkWriter [] None) <? _) eqn:C3; [|rewrite C3; reflexivity].
      cbn [List.length Nat.eqb].
      rewrite portWrite_works by (rewrite works_withSent; exact Hw).
      rewrite skipn_all. cbn [List.length]. rewrite ltb_0. reflexivity.
    + cbn [isNil]. rewrite andb_false_r.
      cbn [skipn sticky isNil]. rewrite andb_false_r.
      cbn [sticky isNil]. apply andb_false_r.
Qed.

(** ** The flattening loop *)

Lemma wrap_succ k : wrap (wrap k + 1) = wrap (k + 1).
Proof.
  unfold wrap.
  replace ((k + 2 ^ 63) mod 2 ^ 64 - 2 ^ 63 + 1 + 2 ^ 63)%Z
    with ((k + 2 ^ 63) mod 2 ^ 64 + 1)%Z by lia.
  rewrite Z.add_mod_idemp_l by lia. f_equal. f_equal. lia.
Qed.

Lemma wrap_small z : (- 2 ^ 63 <= z < 2 ^ 63)%Z -> wrap z = z.
Proof. intros H. unfold wrap. rewrite Z.mod_small; lia. Qed.

Lemma keep_fold ls : forall acc k,
  fold_left keep ls (acc, wrap k)
  = (acc ++ filter nonNil ls, wrap (k + Z.of_nat (List.length (filter nonNil ls)))).
Proof.
  induction ls as [|el ls IH]; intros acc k.
  - cbn. rewrite app_nil_r, Z.add_0_r. reflexivity.
  - cbn [fold_left filter].
    destruct el; cbn [keep nonNil fst snd]; try apply IH;
      rewrite wrap_succ, IH, <- app_assoc; cbn [List.length app];
      do 2 f_equal; lia.
Qed.

Lemma flattenArg_fold arg acc k :
  flattenArg (acc, wrap k) arg
  = (acc ++ spliced arg, wrap (k + Z.of_nat (List.length (spliced arg)))).
Proof.
  destruct arg; cbn [flattenArg spliced]; try apply keep_fold;
    try (change (keep (acc, wrap k) ?v) with (fold_left keep [v] (acc, wrap k));
         apply keep_fold).
Qed.

Lemma flattenLoop_fold args : forall acc k,
  fold_left flattenArg args (acc, wrap k)
  = (acc ++ flat_map spliced args,
     wrap (k + Z.of_nat (List.length (flat_map spliced args)))).
Proof.
  induction args as [|arg args IH]; intros acc k.
  - cbn. rewrite app_nil_r, Z.add_0_r. reflexivity.
  - cbn [fold_left flat_map]. rewrite flattenArg_fold, IH, <- app_assoc.
    rewrite length_app. do 2 f_equal. lia.
Qed.

Lemma flattenLoop_spec args :
  flattenLoop args
  = (flat_map spliced args, wrap (Z.of_nat (List.length (flat_map spliced args)))).
Proof.
  unfold flattenLoop. change 0%Z with (wrap 0). rewrite flattenLoop_fold. reflexivity.
Qed.

Lemma flatten_spec args : flatten args = flat_map spliced args.
Proof. unfold flatten. rewrite flattenLoop_spec. reflexivity. Qed.

(** ** Writes on a working connection *)

Lemma after_start s p :
  port s = Some p -> sticky (readWriter s) = None ->
  after s p (sent p ++ buf (readWriter s)) s.
Proof.
  intros Hp Hs. exists (sent p), (readWriter s). repeat split; auto.
  destruct s; cbn in *. subst. rewrite withSent_id. reflexivity.
Qed.

Lemma Write_after s p total s1 b :
  works p = true -> after s p total s1 ->
  exists s2, Write b s1 = (None, s2) /\ after s p (total ++ b) s2.
Proof.
  intros Hw (l & w & -> & Hs & Ht).
  destruct (bufioWrite_works b w (withSent l p) Hs Hw) as (l' & w' & E & Hs' & Ht').
  unfold Write. cbn [port setIO readWriter]. rewrite E.
  eexists; split; [reflexivity|].
  exists l', w'. repeat split; auto.
  cbn [sent withSent] in Ht'. rewrite Ht', <- Ht, app_assoc. reflexivity.
Qed.

Lemma write_supported v s :
  supported v = true -> write v s = Write (field (text v)) s.
Proof. destruct v as [| | |[|]| | |]; try discriminate; reflexivity. Qed.

Lemma write_unsupported v s :
  supported v = false -> write v s = (Some (unsupported v), s).
Proof. destruct v; try discriminate; reflexivity. Qed.

Lemma writeEach_after s p vs : forall total s1,
  works p = true -> after s p total s1 ->
  exists s2, writeEach vs s1 = (option_map unsupported (offender vs), s2)
          /\ after s p (total ++ fields (encodable vs)) s2.
Proof.
  induction vs as [|v vs IH]; intros total s1 Hw Ha.
  - exists s1. cbn. rewrite app_nil_r. auto.
  - cbn [writeEach offender encodable]. destruct (supported v) eqn:Ev.
    + rewrite write_supported by assumption.
      destruct (Write_after s p total s1 (field (text v)) Hw Ha) as (s2 & E & Ha2).
      rewrite E. destruct (IH _ _ Hw Ha2) as (s3 & E3 & Ha3).
      exists s3. split; [assumption|].
      cbn [fields flat_map]. rewrite app_assoc. exact Ha3.
    + rewrite write_unsupported by assumption.
      exists s1. cbn. rewrite app_nil_r. auto.
Qed.

Lemma Flush_after s p total s1 :
  works p = true -> after s p total s1 ->
  Flush s1 = (None, setIO newWriter (withSent total p) s).
Proof.
  intros Hw (l & w & -> & Hs & Ht).
  unfold Flush. cbn [port setIO readWriter].
  rewrite bufioFlush_works by assumption. cbn [sent withSent]. rewrite Ht. reflexivity.
Qed.

Lemma call_header s p namespace id args :
  port s = Some p -> works p = true -> sticky (readWriter s) = None ->
  exists s3, after s p (sent p ++ buf (readWriter s) ++ header namespace id args) s3
    /\ call namespace id args s =
       (let (err, conn) := writeEach (flatten args) s3 in
        match err with
        | Some e => (("", Some e), conn)
        | None =>
            let (err, conn) := Flush conn in
            match err with
            | Some e => (("", Some e), conn)
            | None => returnValue conn
            end
        end).
Proof.
  intros Hp Hw Hs. pose proof (after_start s p Hp Hs) as H0.
  destruct (Write_after s p _ s (field namespace) Hw H0) as (s1 & E1 & H1).
  destruct (Write_after s p _ s1 (field (Itoa id)) Hw H1) as (s2 & E2 & H2).
  destruct (Write_after s p _ s2
              (field (Itoa (wrap (wrap (Z.of_nat (List.length (flatten args))) - 1)))) Hw H2)
    as (s3 & E3 & H3).
  exists s3. split.
  - unfold header. repeat rewrite <- app_assoc in H3. exact H3.
  - unfold call. rewrite (write_supported (Str namespace)) by reflexivity.
    cbn [text]. rewrite E1.
    rewrite (write_supported (Int id)) by reflexivity. cbn [text]. rewrite E2.
    rewrite flattenLoop_spec, <- flatten_spec.
    rewrite (write_supported (Int _)) by reflexivity. cbn [text]. rewrite E3.
    reflexivity.
Qed.

Lemma after_ready s p total s1 :
  works p = true -> after s p total s1 ->
  ready s1 = true /\ stream s1 = total /\ flushes s1 = flushed p
  /\ SerialConfig s1 = SerialConfig s.
Proof.
  intros Hw (l & w & -> & Hs & Ht). unfold ready, stream, flushes.
  cbn [port setIO readWriter sent withSent flushed SerialConfig].
  rewrite works_withSent, Hw, Hs. auto.
Qed.

Lemma ready_inv s :
  ready s = true ->
  exists p, port s = Some p /\ works p = true /\ sticky (readWriter s) = None.
Proof.
  unfold ready. destruct (port s) as [p|]; [|discriminate].
  intros H. apply andb_true_iff in H. destruct H as [Hw Hs].
  exists p. repeat split; auto. destruct (sticky (readWriter s)); [discriminate|reflexivity].
Qed.

Lemma ReadLine_keeps s :
  ready (snd (ReadLine s)) = ready s /\ stream (snd (ReadLine s)) = stream s.
Proof.
  unfold ReadLine, ready, stream.
  destruct (port s) as [p|] eqn:Hp; [|cbn; rewrite Hp; auto].
  unfold portScan, portFlush.
  destruct (inbound p) as [|[line|msg|] rest]; cbn; auto.
Qed.

Lemma returnValue_keeps s :
  ready (snd (returnValue s)) = ready s /\ stream (snd (returnValue s)) = stream s.
Proof.
  unfold returnValue. pose proof (ReadLine_keeps s) as H.
  destruct (ReadLine s) as [[b [e|]] s1]; exact H.
Qed.

Lemma call_unfolded s p namespace id args :
  port s = Some p -> works p = true -> sticky (readWriter s) = None ->
  exists s4,
    after s p (sent p ++ buf (readWriter s) ++ callBytes namespace id args) s4
    /\ call namespace id args s =
       match offender (flatten args) with
       | Some v => (("", Some (unsupported v)), s4)
       | None =>
           returnValue
             (setIO newWriter
                (withSent (sent p ++ buf (readWriter s) ++ callBytes namespace id args) p) s)
       end.
Proof.
  intros Hp Hw Hs.
  destruct (call_header s p namespace id args Hp Hw Hs) as (s3 & H3 & E).
  destruct (writeEach_after s p (flatten args) _ s3 Hw H3) as (s4 & E4 & H4).
  exists s4. split.
  - unfold callBytes. repeat rewrite <- app_assoc in H4. repeat rewrite <- app_assoc.
    exact H4.
  - rewrite E, E4. destruct (offender (flatten args)) as [v|]; cbn [option_map].
    + reflexivity.
    + rewrite (Flush_after s p _ s4 Hw H4). unfold callBytes.
      repeat rewrite <- app_assoc. reflexivity.
Qed.

Lemma offender_none vs : forallb supported vs = true -> offender vs = None /\ encodable vs = vs.
Proof.
  induction vs as [|v vs IH]; [auto|]. cbn. destruct (supported v); [|discriminate].
  cbn. intros H. destruct (IH H) as [-> ->]. auto.
Qed.

Lemma call_stream namespace id args s :
  ready s = true ->
  ready (snd (call namespace id args s)) = true
  /\ stream (snd (call namespace id args s)) = stream s ++ callBytes namespace id args.
Proof.
  intros Hr. destruct (ready_inv s Hr) as (p & Hp & Hw & Hs).
  destruct (call_unfolded s p namespace id args Hp Hw Hs) as (s4 & H4 & E).
  rewrite E. unfold stream at 2. rewrite Hp. rewrite <- app_assoc.
  destruct (offender (flatten args)).
  - cbn [snd]. destruct (after_ready _ _ _ _ Hw H4) as (? & ? & _). auto.
  - destruct (returnValue_keeps
                (setIO newWriter
                   (withSent (sent p ++ buf (readWriter s) ++ callBytes namespace id args) p) s))
      as [-> ->].
    unfold ready, stream. cbn [port setIO readWriter newWriter sticky buf sent withSent].
    rewrite works_withSent, Hw, app_nil_r. auto.
Qed.

Lemma call_sends namespace id args s p :
  port s = Some p -> works p = true -> sticky (readWriter s) = None ->
  forallb supported (flatten args) = true ->
  call namespace id args s =
  returnValue
    (setIO newWriter
       (withSent (sent p ++ buf (readWriter s) ++ header namespace id args
                  ++ fields (flatten args)) p) s).
Proof.
  intros Hp Hw Hs Hall. destruct (offender_none _ Hall) as [Ho He].
  destruct (call_unfolded s p namespace id args Hp Hw Hs) as (s4 & _ & E).
  rewrite E, Ho. unfold callBytes. rewrite He. reflexivity.
Qed.

(** ** Callers under the mutex *)

Lemma call_request j conn :
  call (jNamespace j) (jId j) (jArgs j) conn = finish (Writing (request j)) conn.
Proof.
  unfold call, request, finish. destruct (flattenLoop (jArgs j)) as [toprint nel].
  cbn [writeEach].
  destruct (write (Str (jNamespace j)) conn) as [[e|] c1]; [reflexivity|].
  destruct (write (Int (jId j)) c1) as [[e|] c2]; [reflexivity|].
  destruct (write (Int (wrap (nel - 1))) c2) as [[e|] c3]; reflexivity.
Qed.

Lemma seqRun_snoc jobs order t j store :
  nth_error jobs t = Some j ->
  seqRun jobs (order ++ [t]) store =
  (let (rs, st) := seqRun jobs order store in
   let (r, st') := callOn j st in (rs ++ [r], st')).
Proof.
  intros Hj. revert store. induction order as [|u order IH]; intros store.
  - cbn. rewrite Hj. destruct (callOn j store). reflexivity.
  - change ((u :: order) ++ [t]) with (u :: (order ++ [t])). cbn [seqRun].
    destruct (nth_error jobs u) as [ju|].
    + destruct (callOn ju store) as [r1 st1]. rewrite IH.
      destruct (seqRun jobs order st1) as [rs st]. destruct (callOn j st). reflexivity.
    + apply IH.
Qed.

Lemma upd_same {A} (f : nat -> A) i x : upd f i x i = x.
Proof. unfold upd. rewrite Nat.eqb_refl. reflexivity. Qed.

Lemma upd_other {A} (f : nat -> A) i x j : j <> i -> upd f i x j = f j.
Proof. intros H. unfold upd. apply Nat.eqb_neq in H. rewrite H. reflexivity. Qed.

Lemma inv_start jobs store0 : inv jobs store0 (start store0) [].
Proof.
  repeat split; cbn; auto. constructor. intros t [].
Qed.

Lemma done_is_Done jobs store0 cfg done t :
  map (pcs cfg) done = map finished (fst (seqRun jobs done store0)) ->
  In t done -> exists v e, pcs cfg t = Done v e.
Proof.
  intros Hm Hin. apply (in_map (pcs cfg)) in Hin. rewrite Hm in Hin.
  apply in_map_iff in Hin. destruct Hin as (r & Hr & _).
  exists (fst r), (snd r). symmetry. exact Hr.
Qed.

Lemma map_upd_notin {A} (f : nat -> A) t x l :
  ~ In t l -> map (upd f t x) l = map f l.
Proof.
  intros Hn. apply map_ext_in. intros a Ha. apply upd_other. intros ->. contradiction.
Qed.

Lemma inv_inside jobs store0 cfg done t j :
  inv jobs store0 cfg done ->
  inside (pcs cfg t) = true -> nth_error jobs t = Some j ->
  mutex cfg = true /\ ~ In t done /\
  (forall u, u <> t -> ~ In u done -> pcs cfg u = AtLock) /\
  (forall i, i <> jConn j -> conns cfg i = snd (seqRun jobs done store0) i) /\
  finish (pcs cfg t) (conns cfg (jConn j))
  = call (jNamespace j) (jId j) (jArgs j) (snd (seqRun jobs done store0) (jConn j)).
Proof.
  intros (Hnd & Hlt & Hmap & Hm) Hin Hj.
  assert (Hnot : ~ In t done).
  { intros Ht. destruct (done_is_Done _ _ _ _ _ Hmap Ht) as (v & e & E).
    rewrite E in Hin. discriminate. }
  destruct (mutex cfg).
  - destruct Hm as (h & j' & Hj' & Hh & Hih & Hothers & Hconns & Hfin).
    destruct (Nat.eq_dec t h) as [->|Hne].
    + rewrite Hj in Hj'. injection Hj' as <-. auto 6.
    + rewrite (Hothers t Hne Hnot) in Hin. discriminate.
  - destruct Hm as (Hothers & _). rewrite (Hothers t Hnot) in Hin. discriminate.
Qed.

Lemma inv_advance jobs store0 cfg done t j at' conn' :
  inv jobs store0 cfg done ->
  inside (pcs cfg t) = true -> nth_error jobs t = Some j ->
  inside at' = true ->
  finish at' conn' = finish (pcs cfg t) (conns cfg (jConn j)) ->
  inv jobs store0
    (mkCfg (mutex cfg) (upd (conns cfg) (jConn j) conn') (upd (pcs cfg) t at')) done.
Proof.
  intros Hinv Hin Hj Hin' Hfin.
  destruct (inv_inside _ _ _ _ _ _ Hinv Hin Hj) as (Hm & Hnot & Hothers & Hconns & Hcall).
  destruct Hinv as (Hnd & Hlt & Hmap & _).
  split; [assumption|]. split; [assumption|]. split.
  - cbn [pcs]. rewrite map_upd_notin by assumption. exact Hmap.
  - cbn [mutex pcs conns]. rewrite Hm. exists t, j.
    rewrite !upd_same. repeat split; auto.
    + intros u Hu Hud. rewrite upd_other by assumption. auto.
    + intros i Hi. rewrite upd_other by assumption. auto.
    + rewrite Hfin. exact Hcall.
Qed.

Lemma inv_step jobs store0 cfg done t :
  inv jobs store0 cfg done ->
  exists done', inv jobs store0 (step jobs t cfg) done'.
Proof.
  intros Hinv. unfold step.
  destruct (nth_error jobs t) as [j|] eqn:Hj; [|eauto].
  destruct (pcs cfg t) as [|pending| |v err|v err] eqn:Hpc.
  - (* Lock *)
    destruct (mutex cfg) eqn:Hm; [eauto|].
    destruct Hinv as (Hnd & Hlt & Hmap & Hfree). rewrite Hm in Hfree.
    destruct Hfree as (Hothers & Hconns).
    assert (Hnot : ~ In t done).
    { intros Ht. destruct (done_is_Done _ _ _ _ _ Hmap Ht) as (v & e & E). congruence. }
    exists done. split; [assumption|]. split; [assumption|]. split.
    + cbn [pcs]. rewrite map_upd_notin by assumption. exact Hmap.
    + cbn [mutex pcs conns]. exists t, j. rewrite upd_same.
      repeat split; auto.
      * intros u Hu Hud. rewrite upd_other by assumption. auto.
      * rewrite Hconns. symmetry. apply call_request.
  - (* a field, or the flush *)
    assert (Hin : inside (pcs cfg t) = true) by (rewrite Hpc; reflexivity).
    destruct pending as [|v pending].
    + destruct (Flush (conns cfg (jConn j))) as [err conn] eqn:E.
      exists done. apply inv_advance; auto.
      * destruct err; reflexivity.
      * rewrite Hpc. cbn [finish writeEach]. rewrite E. destruct err; reflexivity.
    + destruct (write v (conns cfg (jConn j))) as [err conn] eqn:E.
      exists done. apply inv_advance; auto.
      * destruct err; reflexivity.
      * rewrite Hpc. cbn [finish writeEach]. rewrite E. destruct err; reflexivity.
  - (* the reply *)
    assert (Hin : inside (pcs cfg t) = true) by (rewrite Hpc; reflexivity).
    destruct (returnValue (conns cfg (jConn j))) as [[v err] conn] eqn:E.
    exists done. apply inv_advance; auto. rewrite Hpc. cbn [finish]. rewrite E. reflexivity.
  - (* Unlock *)
    assert (Hin : inside (pcs cfg t) = true) by (rewrite Hpc; reflexivity).
    destruct (inv_inside _ _ _ _ _ _ Hinv Hin Hj) as (Hm & Hnot & Hothers & Hconns & Hcall).
    destruct Hinv as (Hnd & Hlt & Hmap & _).
    rewrite Hpc in Hcall. cbn [finish] in Hcall.
    exists (done ++ [t]).
    assert (Hseq := seqRun_snoc jobs done t j store0 Hj).
    destruct (seqRun jobs done store0) as [rs st] eqn:Es.
    unfold callOn in Hseq. cbn [fst snd] in *.
    rewrite <- Hcall in Hseq.
    split; [|split; [|split]].
    + apply NoDup_app; auto.
      * constructor; [intros []|constructor].
      * intros x Hx [->|[]]. contradiction.
    + intros u Hu. apply in_app_iff in Hu. destruct Hu as [Hu|[<-|[]]]; auto.
      apply nth_error_Some. congruence.
    + rewrite Hseq. cbn [fst pcs]. rewrite !map_app. cbn [map].
      rewrite upd_same, map_upd_notin by assumption. rewrite Hmap. reflexivity.
    + cbn [mutex pcs conns]. rewrite Hseq. cbn [snd]. split.
      * intros u Hu. destruct (Nat.eq_dec u t) as [->|Hne].
        -- exfalso. apply Hu. apply in_app_iff. right. left. reflexivity.
        -- rewrite upd_other by assumption. apply Hothers; auto.
           intros Hd. apply Hu. apply in_app_iff. left. exact Hd.
      * intros i. unfold upd. destruct (i =? jConn j) eqn:Ei.
        -- apply Nat.eqb_eq in Ei. subst i. reflexivity.
        -- apply Nat.eqb_neq in Ei. auto.
  - eauto.
Qed.

Lemma inv_run jobs store0 sched : forall cfg done,
  inv jobs store0 cfg done ->
  exists done', inv jobs store0 (run jobs sched cfg) done'.
Proof.
  induction sched as [|t sched IH]; intros cfg done Hinv.
  - eauto.
  - cbn [run]. destruct (inv_step jobs store0 cfg done t Hinv) as (done1 & Hinv1).
    eauto.
Qed.

(** ** The claims *)

(** C1. On an open connection, [call "A" 0 ["dw"; "13"; "1"]] hands the
    transport exactly the bytes [A\0 0\0 2\0 dw\0 13\0 1\0], in that order
    and all of them delivered to the device; when the reply line is [ok],
    the call returns ["ok"] and no error. *)
Theorem scenario_A_digital_write s p rest :
  port s = Some p -> works p = true -> sticky (readWriter s) = None ->
  inbound p = Token (list_byte_of_string "ok") :: rest ->
  fst (call "A" 0 [Str "dw"; Str "13"; Str "1"] s) = ("ok", None)
  /\ stream (snd (call "A" 0 [Str "dw"; Str "13"; Str "1"] s)) = stream s ++ scenarioBytes
  /\ buf (readWriter (snd (call "A" 0 [Str "dw"; Str "13"; Str "1"] s))) = [].
Proof.
  intros Hp Hw Hs Hin.
  rewrite (call_sends "A" 0 _ s p Hp Hw Hs) by reflexivity.
  change (header "A" 0 [Str "dw"; Str "13"; Str "1"]
          ++ fields (flatten [Str "dw"; Str "13"; Str "1"])) with scenarioBytes.
  unfold returnValue, ReadLine, portScan, stream.
  cbn [port setIO inbound withSent]. rewrite Hin, Hp.
  cbn. rewrite app_nil_r, <- app_assoc. auto.
Qed.

Lemma scenario_A_witness :
  fst (call "A" 0 [Str "dw"; Str "13"; Str "1"]
         (opened [Token (list_byte_of_string "ok")])) = ("ok", None)
  /\ stream (snd (call "A" 0 [Str "dw"; Str "13"; Str "1"]
                    (opened [Token (list_byte_of_string "ok")])))
     = stream (opened [Token (list_byte_of_string "ok")]) ++ scenarioBytes
  /\ buf (readWriter (snd (call "A" 0 [Str "dw"; Str "13"; Str "1"]
                             (opened [Token (list_byte_of_string "ok")])))) = [].
Proof.
  apply (scenario_A_digital_write (opened [Token (list_byte_of_string "ok")])
           (mkPort [] 1 false None None None [Token (list_byte_of_string "ok")]) []);
    reflexivity.
Defined.

Lemma prefix_append s t : String.prefix s (s ++ t) = true.
Proof.
  induction s as [|a s IH]; cbn.
  - destruct t; reflexivity.
  - destruct (ascii_dec a a); [exact IH|contradiction].
Qed.

Lemma ReadLine_quiet s p :
  port s = Some p -> fst (portScan p) = Quiet ->
  fst (ReadLine s)
  = ([], Some (SerialTimeoutError (Name (SerialConfig s) ++ " ReadLine timeout")))
  /\ flushes (snd (ReadLine s)) = S (flushed p).
Proof.
  intros Hp Hq. unfold ReadLine, flushes. rewrite Hp.
  destruct (portScan p) as [o p1] eqn:E. cbn [fst] in Hq. subst o.
  cbn. split; [reflexivity|].
  unfold portScan in E. destruct (inbound p) as [|o rest].
  - injection E as <-. reflexivity.
  - injection E as _ <-. reflexivity.
Qed.

(** C2. On an open connection whose line stays quiet for [ReadTimeout],
    [ReadLine] returns the timeout error, whose message starts with the
    port's name, and flushes the port exactly once; a call whose request
    went out returns [""] with that error, the port flushed once. *)
Theorem ReadLine_timeout s p :
  port s = Some p -> fst (portScan p) = Quiet ->
  fst (ReadLine s)
  = ([], Some (SerialTimeoutError (Name (SerialConfig s) ++ " ReadLine timeout")))
  /\ String.prefix (Name (SerialConfig s))
       (Name (SerialConfig s) ++ " ReadLine timeout") = true
  /\ flushes (snd (ReadLine s)) = S (flushes s)
  /\ forall namespace id args,
       works p = true -> sticky (readWriter s) = None ->
       forallb supported (flatten args) = true ->
       fst (call namespace id args s)
       = ("", Some (SerialTimeoutError (Name (SerialConfig s) ++ " ReadLine timeout")))
       /\ flushes (snd (call namespace id args s)) = S (flushes s).
Proof.
  intros Hp Hq. destruct (ReadLine_quiet s p Hp Hq) as [E F].
  split; [exact E|]. split; [apply prefix_append|].
  unfold flushes at 2. rewrite Hp. split; [exact F|].
  intros namespace id args Hw Hs Hall.
  rewrite (call_sends namespace id args s p Hp Hw Hs Hall).
  set (total := sent p ++ _).
  assert (Hq' : fst (portScan (withSent total p)) = Quiet).
  { unfold portScan in *. cbn [inbound withSent]. destruct (inbound p); auto. }
  destruct (ReadLine_quiet (setIO newWriter (withSent total p) s) (withSent total p)
              eq_refl Hq') as [E' F'].
  unfold returnValue.
  destruct (ReadLine (setIO newWriter (withSent total p) s)) as [[b err] s1].
  cbn [fst snd flushed withSent] in E', F'. injection E' as -> ->. cbn [fst snd]. unfold flushes at 2. rewrite Hp. auto.
Qed.

Lemma ReadLine_timeout_witness :
  fst (ReadLine (opened [])) = ([], Some (SerialTimeoutError "fake ReadLine timeout"))
  /\ fst (call "A" 0 [Str "dw"; Str "13"; Str "1"] (opened []))
     = ("", Some (SerialTimeoutError "fake ReadLine timeout"))
  /\ flushes (snd (call "A" 0 [Str "dw"; Str "13"; Str "1"] (opened [])))
     = S (flushes (opened [])).
Proof.
  destruct (ReadLine_timeout (opened []) (mkPort [] 1 false None None None [])
              eq_refl eq_refl) as (E & _ & _ & H).
  split; [exact E|].
  exact (H "A" 0%Z [Str "dw"; Str "13"; Str "1"] eq_refl eq_refl eq_refl).
Defined.

(** C3, as the code has it. A connection whose port handle is unset (one
    on which [Open] has not succeeded) refuses [Write], [Flush], [ReadLine]
    and [FlushPort] with the port-closed error and stays as it was. *)
Theorem closed_before_Open s b :
  port s = None ->
  Write b s = (Some portClosed, s)
  /\ Flush s = (Some portClosed, s)
  /\ ReadLine s = (([], Some portClosed), s)
  /\ FlushPort s = (Some portClosed, s).
Proof.
  intros Hp. unfold Write, Flush, ReadLine, FlushPort. rewrite Hp. auto.
Qed.

Lemma closed_before_Open_witness :
  Write ["x"%byte] (NewFirmwareConnection (mkConfig "fake" 9600))
  = (Some portClosed, NewFirmwareConnection (mkConfig "fake" 9600))
  /\ Flush (NewFirmwareConnection (mkConfig "fake" 9600))
     = (Some portClosed, NewFirmwareConnection (mkConfig "fake" 9600))
  /\ ReadLine (NewFirmwareConnection (mkConfig "fake" 9600))
     = (([], Some portClosed), NewFirmwareConnection (mkConfig "fake" 9600))
  /\ FlushPort (NewFirmwareConnection (mkConfig "fake" 9600))
     = (Some portClosed, NewFirmwareConnection (mkConfig "fake" 9600)).
Proof.
  apply (closed_before_Open (NewFirmwareConnection (mkConfig "fake" 9600)) ["x"%byte]).
  reflexivity.
Defined.

(** C3 as stated fails after [Close]: the handle stays set, so [Write]
    buffers the bytes and [Flush] of an empty buffer succeeds, neither
    with the port-closed error. *)
Lemma closed_after_Close_counterexample :
  fst (Close (opened [])) = None
  /\ fst (Write ["x"%byte] (snd (Close (opened [])))) = None
  /\ fst (Flush (snd (Close (opened [])))) = None
  /\ fst (Write ["x"%byte] (snd (Close (opened [])))) <> Some portClosed.
Proof.
  repeat split; try reflexivity. discriminate.
Qed.

Lemma spliced_flat vs :
  forallb nonNil vs = true -> forallb notSlice vs = true -> flat_map spliced vs = vs.
Proof.
  induction vs as [|v vs IH]; [reflexivity|]. cbn [forallb flat_map].
  intros H1 H2. apply andb_true_iff in H1, H2. destruct H1 as [Hv1 H1], H2 as [Hv2 H2].
  rewrite (IH H1 H2). destruct v; try discriminate; reflexivity.
Qed.

Lemma filter_nonNil ls : forallb nonNil (filter nonNil ls) = true.
Proof.
  induction ls as [|v ls IH]; [reflexivity|]. cbn [filter].
  destruct (nonNil v) eqn:E; [cbn; rewrite E; exact IH|exact IH].
Qed.

Lemma filter_notSlice ls :
  forallb notSlice ls = true -> forallb notSlice (filter nonNil ls) = true.
Proof.
  induction ls as [|v ls IH]; [reflexivity|]. cbn [forallb filter]. intros H.
  apply andb_true_iff in H. destruct H as [Hv H].
  destruct (nonNil v); [cbn; rewrite Hv; auto|auto].
Qed.

Lemma forallb_app' {A} (f : A -> bool) l1 l2 :
  forallb f l1 = true -> forallb f l2 = true -> forallb f (l1 ++ l2) = true.
Proof. intros H1 H2. rewrite forallb_app, H1, H2. reflexivity. Qed.

Lemma flat_shallow args :
  shallow args = true ->
  forallb nonNil (flat_map spliced args) = true
  /\ forallb notSlice (flat_map spliced args) = true.
Proof.
  induction args as [|arg args IH]; [auto|]. unfold shallow. cbn [forallb flat_map].
  intros H. apply andb_true_iff in H. destruct H as [Ha H].
  destruct (IH H) as [I1 I2]. split; apply forallb_app'; auto.
  - destruct arg; try reflexivity. apply filter_nonNil.
  - destruct arg; try reflexivity. apply filter_notSlice. exact Ha.
Qed.

(** C4, as the code has it. The loop splices one level only: on argument
    lists nested at most one level (no element of a list-valued argument
    is itself a list) flattening is idempotent. *)
Theorem flatten_idempotent_shallow args :
  shallow args = true -> flatten (flatten args) = flatten args.
Proof.
  intros H. rewrite !flatten_spec. destruct (flat_shallow args H) as [H1 H2].
  apply spliced_flat; assumption.
Qed.

Lemma flatten_idempotent_shallow_witness :
  flatten (flatten [Str "dw"; Slice [Int 13; Nil; Bool true]; Nil])
  = flatten [Str "dw"; Slice [Int 13; Nil; Bool true]; Nil].
Proof.
  apply (flatten_idempotent_shallow [Str "dw"; Slice [Int 13; Nil; Bool true]; Nil]).
  reflexivity.
Defined.

(** C4 as stated fails two levels deep: the inner list survives the first
    pass and is spliced by the second. *)
Lemma flatten_nested_counterexample :
  flatten [Slice [Slice [Str "a"]]] = [Slice [Str "a"]]
  /\ flatten (flatten [Slice [Slice [Str "a"]]]) = [Str "a"]
  /\ flatten [Slice [Slice [Str "a"]]] <> flatten (flatten [Slice [Slice [Str "a"]]]).
Proof.
  repeat split. discriminate.
Qed.

Lemma count_no_wrap n :
  (Z.of_nat n < 2 ^ 63)%Z -> wrap (wrap (Z.of_nat n) - 1) = (Z.of_nat n - 1)%Z.
Proof.
  intros H. rewrite (wrap_small (Z.of_nat n)) by lia. apply wrap_small. lia.
Qed.

(** C5. On a working connection every call hands the transport the
    namespace, the id, and as third field the decimal text of the number
    of flattened non-null arguments minus one, before the arguments; with
    one flattened argument that field is [0]. *)
Theorem count_field namespace id args s :
  ready s = true ->
  (Z.of_nat (List.length (flatten args)) < 2 ^ 63)%Z ->
  flatten args = flat_map spliced args
  /\ stream (snd (call namespace id args s))
     = stream s ++ field namespace ++ field (Itoa id)
       ++ field (Itoa (Z.of_nat (List.length (flatten args)) - 1))
       ++ fields (encodable (flatten args))
  /\ (List.length (flatten args) = 1 ->
      stream (snd (call namespace id args s))
      = stream s ++ field namespace ++ field (Itoa id)
        ++ field "0" ++ fields (encodable (flatten args))).
Proof.
  intros Hr Hlen. split; [apply flatten_spec|].
  destruct (call_stream namespace id args s Hr) as [_ E].
  assert (E' : stream (snd (call namespace id args s))
               = stream s ++ field namespace ++ field (Itoa id)
                 ++ field (Itoa (Z.of_nat (List.length (flatten args)) - 1))
                 ++ fields (encodable (flatten args))).
  { rewrite E. unfold callBytes, header. rewrite count_no_wrap by assumption.
    repeat rewrite <- app_assoc. reflexivity. }
  split; [exact E'|]. intros H1. rewrite E', H1. reflexivity.
Qed.

Lemma count_field_witness :
  stream (snd (call "A" 0 [Str "m"] (opened [])))
  = stream (opened []) ++ field "A" ++ field (Itoa 0)
    ++ field "0" ++ fields (encodable (flatten [Str "m"])).
Proof.
  apply (count_field "A" 0%Z [Str "m"] (opened [])); reflexivity.
Defined.

Lemma Write_fits s p bs b :
  port s = Some p -> readWriter s = mkWriter bs None ->
  List.length bs + List.length b <= defaultBufSize ->
  Write b s = (None, setIO (mkWriter (bs ++ b) None) p s).
Proof.
  intros Hp Hw Hfit. unfold Write. rewrite Hp, Hw.
  rewrite bufioWrite_fits by (cbn; auto). reflexivity.
Qed.

Lemma length_fields_cons v vs :
  List.length (fields (v :: vs)) = List.length (field (text v)) + List.length (fields vs).
Proof. unfold fields. cbn [flat_map]. apply length_app. Qed.

Lemma writeEach_fits p vs : forall s bs,
  port s = Some p -> readWriter s = mkWriter bs None ->
  List.length bs + List.length (fields (encodable vs)) <= defaultBufSize ->
  writeEach vs s
  = (option_map unsupported (offender vs),
     setIO (mkWriter (bs ++ fields (encodable vs)) None) p s).
Proof.
  induction vs as [|v vs IH]; intros s bs Hp Hw Hfit.
  - cbn. rewrite app_nil_r. destruct s; cbn in *. subst. reflexivity.
  - cbn [writeEach offender encodable] in *. destruct (supported v) eqn:Ev.
    + rewrite length_fields_cons in Hfit.
      rewrite write_supported by assumption.
      rewrite (Write_fits s p bs _ Hp Hw) by lia.
      rewrite (IH _ (bs ++ field (text v))); [| reflexivity | reflexivity |].
      * cbn [fields flat_map]. rewrite <- app_assoc. reflexivity.
      * rewrite length_app. lia.
    + rewrite write_unsupported by assumption. cbn.
      rewrite app_nil_r. destruct s; cbn in *. subst. reflexivity.
Qed.

Lemma offender_split pre v post :
  forallb supported pre = true -> supported v = false ->
  offender (pre ++ v :: post) = Some v /\ encodable (pre ++ v :: post) = pre.
Proof.
  intros Hpre Hv. induction pre as [|u pre IH]; cbn.
  - rewrite Hv. auto.
  - cbn in Hpre. apply andb_true_iff in Hpre. destruct Hpre as [Hu Hpre].
    rewrite Hu. destruct (IH Hpre) as [-> ->]. auto.
Qed.

Lemma request_encodable namespace id args :
  offender (request (mkJob namespace id args 0)) = offender (flatten args)
  /\ fields (encodable (request (mkJob namespace id args 0))) = callBytes namespace id args.
Proof.
  unfold request, callBytes, header. cbn [jArgs jNamespace jId].
  rewrite flattenLoop_spec, <- flatten_spec. cbn [offender encodable supported].
  split; [reflexivity|]. cbn [fields flat_map text].
  repeat rewrite <- app_assoc. reflexivity.
Qed.

(** C6, as the code has it. On an open connection with no write error
    pending, a call whose flattened arguments are encodable up to a value
    [v] that is not a string, int or bool returns the unsupported-type error
    naming the type of [v], provided the device takes what the buffer
    spills; and when the fields before [v] fit in the buffer's free space,
    the port is left untouched: no byte reaches the device, and neither
    [Flush] nor the read is reached. *)
Theorem unsupported_argument namespace id args s p pre v post :
  port s = Some p -> sticky (readWriter s) = None ->
  flatten args = pre ++ v :: post ->
  forallb supported pre = true -> supported v = false ->
  (works p = true ->
   fst (call namespace id args s)
   = ("", Some (errorString ("Firmware Write: Unsupported type " ++ typeName v))))
  /\ (List.length (buf (readWriter s))
      + List.length (header namespace id args ++ fields pre) <= defaultBufSize ->
      fst (call namespace id args s)
      = ("", Some (errorString ("Firmware Write: Unsupported type " ++ typeName v)))
      /\ port (snd (call namespace id args s)) = Some p).
Proof.
  intros Hp Hs Hflat Hpre Hv.
  destruct (offender_split pre v post Hpre Hv) as [Ho He].
  rewrite <- Hflat in Ho, He. split.
  - intros Hw. destruct (call_unfolded s p namespace id args Hp Hw Hs) as (s4 & _ & E).
    rewrite E, Ho. reflexivity.
  - intros Hfit.
    change (call namespace id args s)
      with (call (jNamespace (mkJob namespace id args 0)) (jId (mkJob namespace id args 0))
              (jArgs (mkJob namespace id args 0)) s).
    rewrite call_request. cbn [finish].
    destruct (request_encodable namespace id args) as [Ro Re].
    rewrite (writeEach_fits p _ s (buf (readWriter s)) Hp).
    + rewrite Ro, Ho. cbn. auto.
    + destruct (readWriter s); cbn in *. subst. reflexivity.
    + rewrite Re. unfold callBytes. rewrite He. exact Hfit.
Qed.

Lemma unsupported_argument_witness :
  fst (call "A" 0 [Str "dw"; Other "float64"] (opened []))
  = ("", Some (errorString "Firmware Write: Unsupported type float64"))
  /\ port (snd (call "A" 0 [Str "dw"; Other "float64"] (opened [])))
     = Some (mkPort [] 1 false None None None []).
Proof.
  apply (unsupported_argument "A" 0%Z [Str "dw"; Other "float64"] (opened [])
           (mkPort [] 1 false None None None []) [Str "dw"] (Other "float64") []);
    try reflexivity.
  apply Nat.leb_le. reflexivity.
Defined.

(** C6 as stated fails on a closed connection, where the call stops at the
    namespace with the port-closed error, and on a request larger than the
    write buffer, whose first bytes reach the device before the error. *)
Lemma unsupported_argument_counterexample :
  fst (call "A" 0 [Other "float64"] (NewFirmwareConnection (mkConfig "fake" 9600)))
  = ("", Some portClosed)
  /\ fst (call longName 0 [Other "float64"] (opened []))
     = ("", Some (errorString "Firmware Write: Unsupported type float64"))
  /\ option_map (fun p => List.length (sent p))
       (port (snd (call longName 0 [Other "float64"] (opened [])))) = Some 4501.
Proof.
  repeat split; vm_compute; reflexivity.
Qed.

Lemma bytes_append s t :
  list_byte_of_string (s ++ t) = list_byte_of_string s ++ list_byte_of_string t.
Proof.
  induction s as [|a s IH]; [reflexivity|].
  cbn [append]. unfold list_byte_of_string in *. cbn [list_ascii_of_string map].
  rewrite IH. reflexivity.
Qed.

Lemma field_terminated s : field s = list_byte_of_string s ++ ["000"%byte].
Proof. unfold field. rewrite bytes_append. reflexivity. Qed.

Lemma Itoa_decimal z :
  NilZero.int_of_string (Itoa z) = Some (Z.to_int z) /\ Z.of_int (Z.to_int z) = z.
Proof.
  split; [|apply DecimalZ.of_to]. unfold Itoa. apply NilZero.isi.
  - destruct z; cbn; try discriminate.
    intros H. injection H as H. exact (DecimalPos.Unsigned.to_uint_nonnil _ H).
  - destruct z; cbn; try discriminate.
    intros H. injection H as H. exact (DecimalPos.Unsigned.to_uint_nonnil _ H).
Qed.

Lemma Write_stream b s :
  ready s = true -> fst (Write b s) = None /\ stream (snd (Write b s)) = stream s ++ b.
Proof.
  intros Hr. destruct (ready_inv s Hr) as (p & Hp & Hw & Hs).
  destruct (Write_after s p _ s b Hw (after_start s p Hp Hs)) as (s2 & E & Ha).
  rewrite E. cbn [fst snd]. split; [reflexivity|].
  destruct (after_ready _ _ _ _ Hw Ha) as (_ & -> & _).
  unfold stream. rewrite Hp, <- app_assoc. reflexivity.
Qed.

(** C7. The scalar encoder hands the transport the token [True] for
    true and [False] for false, the decimal text of an integer, and the
    bytes of a string as they are, each followed by exactly one NUL byte;
    on a working connection these bytes are what the transport accepts. *)
Theorem scalar_encoding :
  (forall s, write (Bool true) s
             = Write (["T"; "r"; "u"; "e"; "000"]%byte) s)
  /\ (forall s, write (Bool false) s
                = Write (["F"; "a"; "l"; "s"; "e"; "000"]%byte) s)
  /\ (forall z s, write (Int z) s
                  = Write (list_byte_of_string (Itoa z) ++ ["000"%byte]) s)
  /\ (forall z, NilZero.int_of_string (Itoa z) = Some (Z.to_int z)
                /\ Z.of_int (Z.to_int z) = z)
  /\ (forall str s, write (Str str) s
                    = Write (list_byte_of_string str ++ ["000"%byte]) s)
  /\ (forall v s, supported v = true -> ready s = true ->
        fst (write v s) = None
        /\ stream (snd (write v s))
           = stream s ++ list_byte_of_string (text v) ++ ["000"%byte]).
Proof.
  split; [reflexivity|]. split; [reflexivity|].
  split. { intros z s. rewrite <- field_terminated. reflexivity. }
  split; [exact Itoa_decimal|].
  split. { intros str s. rewrite <- field_terminated. reflexivity. }
  intros v s Hv Hr. rewrite write_supported by assumption.
  rewrite <- field_terminated. apply Write_stream. exact Hr.
Qed.

Lemma scalar_encoding_witness :
  fst (write (Int 42) (opened [])) = None
  /\ stream (snd (write (Int 42) (opened [])))
     = stream (opened []) ++ list_byte_of_string (text (Int 42)) ++ ["000"%byte].
Proof.
  destruct scalar_encoding as (_ & _ & _ & _ & _ & H).
  apply (H (Int 42) (opened [])); reflexivity.
Defined.

Lemma returnValue_error s e :
  snd (fst (returnValue s)) = Some e -> fst (fst (returnValue s)) = "".
Proof.
  unfold returnValue. destruct (ReadLine s) as [[b [e'|]] s1]; cbn; [auto|discriminate].
Qed.

Lemma call_error namespace id args s e :
  snd (fst (call namespace id args s)) = Some e ->
  fst (fst (call namespace id args s)) = "".
Proof.
  unfold call.
  destruct (write (Str namespace) s) as [[e1|] s1]; [reflexivity|].
  destruct (write (Int id) s1) as [[e2|] s2]; [reflexivity|].
  destruct (flattenLoop args) as [toprint nel].
  destruct (write (Int (wrap (nel - 1))) s2) as [[e3|] s3]; [reflexivity|].
  destruct (writeEach toprint s3) as [[e4|] s4]; [reflexivity|].
  destruct (Flush s4) as [[e5|] s5]; [reflexivity|].
  apply returnValue_error.
Qed.

Lemma bytes_nil s : list_byte_of_string s = [] <-> s = "".
Proof.
  split; [|intros ->; reflexivity]. destruct s; [reflexivity|discriminate].
Qed.

(** C9. [CallAndReturnByte] indexes the reply at 0 before it looks at the
    error: when the underlying call fails the reply is empty and the
    index is out of range; it returns exactly when the call succeeded with
    a reply that is not empty. *)
Theorem CallAndReturnByte_index f methodName args s :
  (forall e,
     snd (fst (ArduinoMethodCall f methodName [Slice args] s)) = Some e ->
     fst (fst (ArduinoMethodCall f methodName [Slice args] s)) = ""
     /\ fst (CallAndReturnByte f methodName args s)
        = Panics "runtime error: index out of range [0] with length 0")
  /\ ((exists r, fst (CallAndReturnByte f methodName args s) = Returns r)
      <-> snd (fst (ArduinoMethodCall f methodName [Slice args] s)) = None
          /\ fst (fst (ArduinoMethodCall f methodName [Slice args] s)) <> "").
Proof.
  unfold CallAndReturnByte.
  pose proof (call_error (Namespace f) (Id f) (prependName [Slice args] methodName) s) as Herr.
  unfold ArduinoMethodCall in *.
  destruct (call (Namespace f) (Id f) (prependName [Slice args] methodName) s)
    as [[reply err] s1].
  cbn [fst snd] in *. split.
  - intros e ->. rewrite (Herr e eq_refl). split; reflexivity.
  - split.
    + intros [r Hr]. destruct (list_byte_of_string reply) as [|s0 rest] eqn:E;
        [discriminate|].
      assert (Hne : reply <> "") by (intros ->; discriminate).
      split; [|exact Hne]. destruct err as [e|]; [|reflexivity].
      elim Hne. exact (Herr e eq_refl).
    + intros [_ Hne]. destruct (list_byte_of_string reply) as [|s0 rest] eqn:E.
      * elim Hne. apply bytes_nil. exact E.
      * exists (s0, err). reflexivity.
Qed.

Lemma CallAndReturnByte_index_witness :
  fst (fst (ArduinoMethodCall NewWire "read" [Slice []]
              (NewFirmwareConnection (mkConfig "fake" 9600)))) = ""
  /\ fst (CallAndReturnByte NewWire "read" [] (NewFirmwareConnection (mkConfig "fake" 9600)))
     = Panics "runtime error: index out of range [0] with length 0".
Proof.
  destruct (CallAndReturnByte_index NewWire "read" []
              (NewFirmwareConnection (mkConfig "fake" 9600))) as [H _].
  apply (H portClosed). reflexivity.
Defined.

(** C10. When [wire.BeginTransmission] returns an error, [Send] returns
    nil: the failure is not passed on to the caller. *)
Theorem Send_swallows_BeginTransmission m address data s s1 e s2 :
  begin m s = (None, s1) ->
  BeginTransmission (wire m) address s1 = (Some e, s2) ->
  Send m address data s = (None, s2).
Proof.
  intros Hb Ht. unfold Send. rewrite Hb, Ht. reflexivity.
Qed.

Lemma Send_swallows_BeginTransmission_witness :
  fst (BeginTransmission NewWire 8%Z
         (snd (begin (NewI2cMaster NewWire) (opened [Token (list_byte_of_string "0")]))))
  = Some (SerialTimeoutError "fake ReadLine timeout")
  /\ fst (Send (NewI2cMaster NewWire) 8%Z ["x"%byte]
            (opened [Token (list_byte_of_string "0")])) = None.
Proof.
  split; [reflexivity|].
  rewrite (Send_swallows_BeginTransmission (NewI2cMaster NewWire) 8%Z ["x"%byte]
             (opened [Token (list_byte_of_string "0")])
             (snd (begin (NewI2cMaster NewWire) (opened [Token (list_byte_of_string "0")])))
             (SerialTimeoutError "fake ReadLine timeout")
             (snd (BeginTransmission NewWire 8%Z
                     (snd (begin (NewI2cMaster NewWire)
                             (opened [Token (list_byte_of_string "0")])))))).
  - reflexivity.
  - reflexivity.
  - reflexivity.
Defined.

Lemma seqRun_stream jobs i order : forall store,
  ready (store i) = true ->
  ready (snd (seqRun jobs order store) i) = true
  /\ stream (snd (seqRun jobs order store) i)
     = stream (store i) ++ concat (runsOn jobs i order).
Proof.
  induction order as [|t order IH]; intros store Hr.
  - cbn. rewrite app_nil_r. auto.
  - unfold runsOn. cbn [seqRun flat_map]. fold (runsOn jobs i order).
    destruct (nth_error jobs t) as [j|]; [|apply IH; exact Hr].
    unfold callOn.
    destruct (jConn j =? i) eqn:Ei.
    + apply Nat.eqb_eq in Ei. subst i.
      destruct (call_stream (jNamespace j) (jId j) (jArgs j) (store (jConn j)) Hr)
        as [Hr1 Hs1].
      destruct (call (jNamespace j) (jId j) (jArgs j) (store (jConn j))) as [r conn].
      cbn [snd] in Hr1, Hs1.
      specialize (IH (upd store (jConn j) conn)). rewrite upd_same in IH.
      destruct (seqRun jobs order (upd store (jConn j) conn)) as [rs st].
      cbn [snd] in *. destruct (IH Hr1) as [-> ->]. split; [reflexivity|].
      rewrite Hs1. cbn [concat app]. rewrite <- app_assoc. reflexivity.
    + apply Nat.eqb_neq in Ei.
      destruct (call (jNamespace j) (jId j) (jArgs j) (store (jConn j))) as [r conn].
      specialize (IH (upd store (jConn j) conn)).
      rewrite upd_other in IH by auto.
      destruct (seqRun jobs order (upd store (jConn j) conn)) as [rs st].
      cbn [snd app] in *. exact (IH Hr).
Qed.

Lemma reachable_inv jobs store0 sched :
  exists done, inv jobs store0 (run jobs sched (start store0)) done.
Proof. exact (inv_run jobs store0 sched (start store0) [] (inv_start jobs store0)). Qed.

Lemma one_inside jobs store0 cfg done t u :
  inv jobs store0 cfg done ->
  inside (pcs cfg t) = true -> inside (pcs cfg u) = true -> t = u.
Proof.
  intros (_ & _ & Hmap & Hm) Ht Hu.
  assert (Hnot : forall x, inside (pcs cfg x) = true -> ~ In x done).
  { intros x Hx Hin. destruct (done_is_Done _ _ _ _ _ Hmap Hin) as (v & e & E).
    rewrite E in Hx. discriminate. }
  destruct (mutex cfg).
  - destruct Hm as (h & j & _ & _ & _ & Hothers & _).
    destruct (Nat.eq_dec t h) as [->|Hth].
    + destruct (Nat.eq_dec u h) as [->|Huh]; [reflexivity|].
      rewrite (Hothers u Huh (Hnot u Hu)) in Hu. discriminate.
    + rewrite (Hothers t Hth (Hnot t Ht)) in Ht. discriminate.
  - destruct Hm as (Hothers & _). rewrite (Hothers t (Hnot t Ht)) in Ht. discriminate.
Qed.

(** C8. Whatever the schedule, at every moment at most one caller is
    between [mutex.Lock()] and [mutex.Unlock()], on whichever connection;
    and once the N callers have returned there is an order of the N calls
    such that every caller's result and every connection's state are those
    of making the calls one after the other in that order, so that on
    every working connection the accepted bytes are the runs of the calls
    made on it, whole and one after the other. *)
Theorem calls_are_serialised jobs store0 sched :
  (forall t u,
     inside (pcs (run jobs sched (start store0)) t) = true ->
     inside (pcs (run jobs sched (start store0)) u) = true -> t = u)
  /\ (allDone jobs (run jobs sched (start store0)) ->
      exists order,
        Permutation order (seq 0 (List.length jobs))
        /\ map (pcs (run jobs sched (start store0))) order
           = map finished (fst (seqRun jobs order store0))
        /\ (forall i, conns (run jobs sched (start store0)) i
                      = snd (seqRun jobs order store0) i)
        /\ (forall i, ready (store0 i) = true ->
              stream (conns (run jobs sched (start store0)) i)
              = stream (store0 i) ++ concat (runsOn jobs i order))).
Proof.
  destruct (reachable_inv jobs store0 sched) as (done & Hinv).
  set (cfg := run jobs sched (start store0)) in *.
  split; [intros t u; exact (one_inside jobs store0 cfg done t u Hinv)|].
  intros Hall. destruct Hinv as (Hnd & Hlt & Hmap & Hm).
  assert (Hfree : mutex cfg = false).
  { destruct (mutex cfg); [|reflexivity].
    destruct Hm as (h & j & Hj & _ & Hin & _).
    assert (Hh : h < List.length jobs) by (apply nth_error_Some; congruence).
    destruct (Hall h Hh) as (v & e & E). rewrite E in Hin. discriminate. }
  rewrite Hfree in Hm. destruct Hm as (Hothers & Hconns).
  exists done. split; [|split; [exact Hmap|split; [exact Hconns|]]].
  - apply NoDup_Permutation; [exact Hnd|apply seq_NoDup|].
    intros t. rewrite in_seq. split.
    + intros Ht. specialize (Hlt t Ht). lia.
    + intros [_ Ht]. destruct (in_dec Nat.eq_dec t done) as [Hin|Hnin]; [exact Hin|].
      destruct (Hall t Ht) as (v & e & E). rewrite (Hothers t Hnin) in E. discriminate.
  - intros i Hr. rewrite Hconns. apply seqRun_stream. exact Hr.
Qed.

Lemma calls_are_serialised_witness :
  exists order,
    Permutation order [0; 1]
    /\ (forall i, stream (conns (run twoCallers inTurn (start twoLines)) i)
                  = stream (twoLines i) ++ concat (runsOn twoCallers i order)).
Proof.
  destruct (calls_are_serialised twoCallers twoLines inTurn) as [_ H].
  destruct H as (order & Hp & _ & _ & Hs).
  - intros t Ht. destruct t as [|[|t]].
    + eexists. eexists. vm_compute. reflexivity.
    + eexists. eexists. vm_compute. reflexivity.
    + cbn in Ht. lia.
  - exists order. split; [exact Hp|]. intros i. apply Hs. reflexivity.
Defined.

(** * Further properties *)

(** ** Method calls *)

Lemma settled_trans s s1 s2 b1 b2 q1 q2 k1 k2 :
  settled s s1 b1 q1 k1 -> settled s1 s2 b2 q2 k2 ->
  settled s s2 (b1 ++ b2) q2 (k1 + k2).
Proof.
  intros (R1 & S1 & _ & F1 & C1) (R2 & S2 & Q2 & F2 & C2).
  repeat split; auto.
  - rewrite S2, S1, app_assoc. reflexivity.
  - rewrite F2, F1. lia.
  - congruence.
Qed.

Lemma offender_some_encodable vs v :
  offender vs = Some v -> supported v = false.
Proof.
  induction vs as [|u vs IH]; [discriminate|]. cbn.
  destruct (supported u) eqn:E; [exact IH|]. intros H. injection H as <-. exact E.
Qed.

Lemma call_aborts namespace id args s v :
  ready s = true -> offender (flatten args) = Some v ->
  exists s', call namespace id args s = (("", Some (unsupported v)), s')
          /\ settled s s' (callBytes namespace id args) (inboundOf s) 0.
Proof.
  intros Hr Ho. destruct (ready_inv s Hr) as (p & Hp & Hw & Hs).
  destruct (call_unfolded s p namespace id args Hp Hw Hs) as (s4 & H4 & E).
  rewrite Ho in E. exists s4. split; [exact E|].
  destruct (after_ready _ _ _ _ Hw H4) as (R & S & F & C).
  destruct H4 as (l & w & -> & _ & _).
  unfold settled, inboundOf, flushes, stream in *. rewrite Hp.
  cbn [port setIO withSent inbound] in *.
  repeat split; auto. rewrite S, <- app_assoc. reflexivity.
Qed.

Lemma call_reads namespace id args s :
  ready s = true -> offender (flatten args) = None ->
  exists s',
    call namespace id args s
    = (match inboundOf s with
       | Token line :: _ => (string_of_list_byte line, None)
       | ScanErr msg :: _ =>
           ("", Some (errorString ("error scanning bytes from port "
                                   ++ Name (SerialConfig s) ++ LF ++ ": " ++ msg)))
       | _ => ("", Some (timeoutOf s))
       end, s')
    /\ settled s s' (callBytes namespace id args) (tl (inboundOf s))
         (match inboundOf s with Token _ :: _ => 0 | _ => 1 end)
    /\ buf (readWriter s') = [].
Proof.
  intros Hr Ho. destruct (ready_inv s Hr) as (p & Hp & Hw & Hs).
  destruct (call_unfolded s p namespace id args Hp Hw Hs) as (s4 & _ & E).
  rewrite Ho in E. rewrite E. clear E s4.
  unfold returnValue, ReadLine, portScan, timeoutOf, settled, inboundOf, flushes, stream, ready.
  rewrite Hp. cbn [port setIO inbound withSent SerialConfig].
  destruct (inbound p) as [|[line|msg|] rest] eqn:Hi; cbn;
    (eexists; split; [reflexivity|]); cbn; unfold works in *; cbn;
    rewrite Hw, app_nil_r, <- app_assoc; repeat split; auto; lia.
Qed.

(** ** Decimal replies *)

Lemma digits_of_uint d : forall acc,
  digitsValue (NilEmpty.string_of_uint d) acc = Some (uintValue d acc).
Proof.
  induction d; intros acc; cbn [NilEmpty.string_of_uint uintValue digitsValue];
    try reflexivity;
    match goal with
    | |- context [isDigit ?c] => change (isDigit c) with true; cbn iota
    end;
    rewrite IHd; reflexivity.
Qed.

Lemma uintValue_acc d : forall acc,
  Z.pos (Pos.of_uint_acc d acc) = uintValue d (Z.pos acc).
Proof.
  induction d; intros acc; cbn [Pos.of_uint_acc uintValue];
    try reflexivity; rewrite IHd; f_equal; lia.
Qed.

Lemma uintValue_0 d : Z.of_N (Pos.of_uint d) = uintValue d 0.
Proof.
  induction d; cbn [Pos.of_uint uintValue]; try reflexivity; try exact IHd;
    cbn [Z.of_N]; rewrite uintValue_acc; reflexivity.
Qed.

Lemma uintValue_to_uint p : uintValue (Pos.to_uint p) 0 = Z.pos p.
Proof.
  rewrite <- uintValue_0, DecimalPos.Unsigned.of_to. reflexivity.
Qed.

Lemma Atoi_digits d :
  d <> Decimal.Nil ->
  Atoi (NilEmpty.string_of_uint d)
  = (let v := uintValue d 0 in
     if (v <? - 2 ^ 63)%Z then ((- 2 ^ 63)%Z, Some (NumError "Atoi" (NilEmpty.string_of_uint d) ErrRange))
     else if (2 ^ 63 - 1 <? v)%Z
          then ((2 ^ 63 - 1)%Z, Some (NumError "Atoi" (NilEmpty.string_of_uint d) ErrRange))
          else (v, None)).
Proof.
  intros Hd. unfold Atoi.
  destruct d; [contradiction| | | | | | | | | | ];
    cbn [NilEmpty.string_of_uint];
    match goal with
    | |- context [digitsValue (String ?c ?r) 0] =>
        change (digitsValue (String c r) 0)
          with (digitsValue (NilEmpty.string_of_uint
                               ltac:(match c with
                                     | "0"%char => exact (D0 d) | "1"%char => exact (D1 d)
                                     | "2"%char => exact (D2 d) | "3"%char => exact (D3 d)
                                     | "4"%char => exact (D4 d) | "5"%char => exact (D5 d)
                                     | "6"%char => exact (D6 d) | "7"%char => exact (D7 d)
                                     | "8"%char => exact (D8 d) | "9"%char => exact (D9 d)
                                     end)) 0)
    end;
    rewrite digits_of_uint; reflexivity.
Qed.

Lemma Atoi_minus_digits d :
  d <> Decimal.Nil ->
  Atoi (String "-" (NilEmpty.string_of_uint d))
  = (let v := (- uintValue d 0)%Z in
     if (v <? - 2 ^ 63)%Z
     then ((- 2 ^ 63)%Z,
           Some (NumError "Atoi" (String "-" (NilEmpty.string_of_uint d)) ErrRange))
     else if (2 ^ 63 - 1 <? v)%Z
          then ((2 ^ 63 - 1)%Z,
                Some (NumError "Atoi" (String "-" (NilEmpty.string_of_uint d)) ErrRange))
          else (v, None)).
Proof.
  intros Hd. unfold Atoi. cbv iota beta.
  pose proof (digits_of_uint d 0) as E.
  destruct d; [contradiction| | | | | | | | | | ];
    cbn [NilEmpty.string_of_uint] in *; rewrite E; reflexivity.
Qed.

Lemma string_of_uint_nonnil d :
  d <> Decimal.Nil -> NilZero.string_of_uint d = NilEmpty.string_of_uint d.
Proof. destruct d; [contradiction|..]; reflexivity. Qed.

Lemma Atoi_Itoa z : inRange z -> Atoi (Itoa z) = (z, None).
Proof.
  unfold inRange, Itoa. intros Hz. destruct z as [|p|p]; cbn [Z.to_int NilZero.string_of_int].
  - reflexivity.
  - pose proof (DecimalPos.Unsigned.to_uint_nonnil p) as Hn.
    rewrite string_of_uint_nonnil, Atoi_digits by exact Hn.
    rewrite uintValue_to_uint. cbv zeta.
    replace (Z.pos p <? - 2 ^ 63)%Z with false by (symmetry; apply Z.ltb_ge; lia).
    replace (2 ^ 63 - 1 <? Z.pos p)%Z with false by (symmetry; apply Z.ltb_ge; lia).
    reflexivity.
  - pose proof (DecimalPos.Unsigned.to_uint_nonnil p) as Hn.
    rewrite string_of_uint_nonnil, Atoi_minus_digits by exact Hn.
    rewrite uintValue_to_uint. cbv zeta.
    replace (- Z.pos p <? - 2 ^ 63)%Z with false by (symmetry; apply Z.ltb_ge; lia).
    replace (2 ^ 63 - 1 <? - Z.pos p)%Z with false by (symmetry; apply Z.ltb_ge; lia).
    reflexivity.
Qed.

(** ** Facade method calls *)

Lemma prependName_shift args name : prependName args name = Str name :: args.
Proof.
  unfold prependName. rewrite length_app. cbn [List.length].
  replace (List.length args + 1 - 1) with (List.length args) by lia.
  rewrite (firstn_app (List.length args)), firstn_all, Nat.sub_diag.
  cbn [firstn]. rewrite app_nil_r.
  destruct args as [|a args]; reflexivity.
Qed.

(** X1. [prependName] puts the name in front of the arguments and keeps
    them all, in order: appending a slot, shifting and overwriting the
    first element loses nothing. *)
Theorem prependName_cons args name :
  prependName args name = Str name :: args
  /\ List.length (prependName args name) = S (List.length args).
Proof.
  rewrite prependName_shift. split; reflexivity.
Qed.

Lemma method_flatten args name :
  flatten (prependName [Slice args] name) = Str name :: filter nonNil args.
Proof.
  rewrite prependName_shift, flatten_spec. cbn [flat_map spliced filter nonNil app].
  rewrite app_nil_r. reflexivity.
Qed.

Lemma methodBytes_frame f name args :
  (Z.of_nat (List.length (filter nonNil args)) < 2 ^ 63 - 1)%Z ->
  methodBytes f name args
  = field (Namespace f) ++ field (Itoa (Id f))
    ++ field (Itoa (Z.of_nat (List.length (filter nonNil args))))
    ++ field name ++ fields (encodable (filter nonNil args)).
Proof.
  intros Hn. unfold methodBytes, callBytes, header. rewrite method_flatten.
  cbn [List.length encodable supported fields flat_map text].
  rewrite count_no_wrap by lia.
  replace (Z.of_nat (S (List.length (filter nonNil args))) - 1)%Z
    with (Z.of_nat (List.length (filter nonNil args))) by lia.
  repeat rewrite <- app_assoc. reflexivity.
Qed.

Lemma method_reads f name args s :
  ready s = true -> offender (filter nonNil args) = None ->
  exists s',
    ArduinoMethodCall f name [Slice args] s
    = (match inboundOf s with
       | Token line :: _ => (string_of_list_byte line, None)
       | ScanErr msg :: _ =>
           ("", Some (errorString ("error scanning bytes from port "
                                   ++ Name (SerialConfig s) ++ LF ++ ": " ++ msg)))
       | _ => ("", Some (timeoutOf s))
       end, s')
    /\ settled s s' (methodBytes f name args) (tl (inboundOf s))
         (match inboundOf s with Token _ :: _ => 0 | _ => 1 end)
    /\ buf (readWriter s') = [].
Proof.
  intros Hr Ho. unfold ArduinoMethodCall, methodBytes. apply call_reads; [exact Hr|].
  rewrite method_flatten. cbn [offender supported]. exact Ho.
Qed.

Lemma method_aborts f name args s v :
  ready s = true -> offender (filter nonNil args) = Some v ->
  exists s',
    ArduinoMethodCall f name [Slice args] s = (("", Some (unsupported v)), s')
    /\ settled s s' (methodBytes f name args) (inboundOf s) 0.
Proof.
  intros Hr Ho. unfold ArduinoMethodCall, methodBytes. apply call_aborts; [exact Hr|].
  rewrite method_flatten. cbn [offender supported]. exact Ho.
Qed.

Lemma method_stream f name args s :
  ready s = true ->
  (Z.of_nat (List.length (filter nonNil args)) < 2 ^ 63 - 1)%Z ->
  stream (snd (ArduinoMethodCall f name [Slice args] s))
  = stream s ++ field (Namespace f) ++ field (Itoa (Id f))
    ++ field (Itoa (Z.of_nat (List.length (filter nonNil args))))
    ++ field name ++ fields (encodable (filter nonNil args)).
Proof.
  intros Hr Hn. unfold ArduinoMethodCall.
  destruct (call_stream (Namespace f) (Id f) (prependName [Slice args] name) s Hr) as [_ E].
  rewrite E. fold (methodBytes f name args). rewrite methodBytes_frame by exact Hn.
  reflexivity.
Qed.

(** X2. A facade method call frames its request as namespace, id, the
    number of its non-nil arguments, the method name, then the arguments:
    the name is sent but not counted, nil arguments are neither. *)
Theorem method_call_frame f name args s :
  ready s = true ->
  (Z.of_nat (List.length (filter nonNil args)) < 2 ^ 63 - 1)%Z ->
  flatten (prependName [Slice args] name) = Str name :: filter nonNil args
  /\ stream (snd (ArduinoMethodCall f name [Slice args] s))
     = stream s ++ field (Namespace f) ++ field (Itoa (Id f))
       ++ field (Itoa (Z.of_nat (List.length (filter nonNil args))))
       ++ field name ++ fields (encodable (filter nonNil args)).
Proof.
  intros Hr Hn. split; [apply method_flatten|apply method_stream; assumption].
Qed.

Lemma method_call_frame_witness :
  stream (snd (ArduinoMethodCall NewWire "begin" [Slice [Nil]] (opened [])))
  = stream (opened []) ++ field "Wire" ++ field (Itoa 0)
    ++ field (Itoa (Z.of_nat (List.length (filter nonNil [Nil]))))
    ++ field "begin" ++ fields (encodable (filter nonNil [Nil])).
Proof.
  apply (method_call_frame NewWire "begin" [Nil] (opened [])); reflexivity.
Defined.

(** ** ArduinoApi *)

Ltac frame :=
  cbn [fields flat_map encodable supported filter nonNil text List.length
       Namespace Id NewArduinoApi NewWire Value];
  rewrite ?app_nil_r; reflexivity.

(** X3. On a working connection [DigitalWrite] sends [A], [0], [2], [dw],
    the pin and the value in decimal, all delivered to the device, and
    returns nil as soon as a reply line arrives, whatever the line says. *)
Theorem DigitalWrite_frame pin val s line rest :
  ready s = true -> inboundOf s = Token line :: rest ->
  exists s',
    DigitalWrite NewArduinoApi pin val s = (None, s')
    /\ stream s' = stream s ++ field "A" ++ field "0" ++ field "2"
                   ++ field "dw" ++ field pin ++ field (Itoa val)
    /\ buf (readWriter s') = []
    /\ inboundOf s' = rest.
Proof.
  intros Hr Hin. unfold DigitalWrite, CallAndReturnNothing.
  destruct (method_reads NewArduinoApi "dw" [Str pin; Int val] s Hr eq_refl)
    as (s' & E & (_ & S & Q & _) & B).
  rewrite E, Hin. exists s'. split; [reflexivity|]. rewrite Hin in Q.
  split; [|auto]. rewrite S. rewrite methodBytes_frame by (cbn; lia). frame.
Qed.

Lemma DigitalWrite_frame_witness :
  exists s',
    DigitalWrite NewArduinoApi "13" 1 (opened [Token (list_byte_of_string "ok")])
    = (None, s')
    /\ stream s' = stream (opened [Token (list_byte_of_string "ok")])
                   ++ field "A" ++ field "0" ++ field "2"
                   ++ field "dw" ++ field "13" ++ field (Itoa 1)
    /\ buf (readWriter s') = []
    /\ inboundOf s' = [].
Proof.
  apply (DigitalWrite_frame "13" 1%Z (opened [Token (list_byte_of_string "ok")])
           (list_byte_of_string "ok") []); reflexivity.
Defined.

(** X4. [AnalogWrite] never transmits its value: whatever [val] is, the
    request is [A], [0], [1], [aw] and the pin. *)
Theorem AnalogWrite_drops_value pin val s :
  ready s = true ->
  stream (snd (AnalogWrite NewArduinoApi pin val s))
  = stream s ++ field "A" ++ field "0" ++ field "1" ++ field "aw" ++ field pin.
Proof.
  intros Hr. unfold AnalogWrite, CallAndReturnNothing.
  pose proof (method_stream NewArduinoApi "aw" [Str pin] s Hr) as E.
  destruct (ArduinoMethodCall NewArduinoApi "aw" [Slice [Str pin]] s) as [[v err] s1].
  cbn [snd] in *. rewrite E by (cbn; lia). frame.
Qed.

Lemma AnalogWrite_drops_value_witness :
  stream (snd (AnalogWrite NewArduinoApi "9" 255 (opened [])))
  = stream (opened []) ++ field "A" ++ field "0" ++ field "1" ++ field "aw" ++ field "9".
Proof.
  apply (AnalogWrite_drops_value "9" 255%Z (opened [])). reflexivity.
Defined.

Lemma writeEach_offender vs v : offender vs = Some v ->
  forall s, fst (writeEach vs s) <> None.
Proof.
  induction vs as [|u vs IH]; [discriminate|]. cbn [offender writeEach].
  intros Ho s. destruct (supported u) eqn:Eu.
  - destruct (write u s) as [[e|] s1]; [discriminate|]. apply IH. exact Ho.
  - rewrite write_unsupported by exact Eu. discriminate.
Qed.

Lemma call_never_succeeds namespace id args v s :
  offender (flatten args) = Some v ->
  exists e, fst (call namespace id args s) = ("", Some e).
Proof.
  intros Ho.
  change (call namespace id args s)
    with (call (jNamespace (mkJob namespace id args 0)) (jId (mkJob namespace id args 0))
            (jArgs (mkJob namespace id args 0)) s).
  rewrite call_request. cbn [finish].
  destruct (request_encodable namespace id args) as [Ro _].
  rewrite <- Ro in Ho. pose proof (writeEach_offender _ _ Ho s) as Hne.
  destruct (writeEach (request (mkJob namespace id args 0)) s) as [[e|] s1].
  - exists e. reflexivity.
  - elim Hne. reflexivity.
Qed.

(** X5. [ShiftOut] cannot succeed: its value is a [byte], which has no
    encoding, so on every connection it returns -1 and an error; on a
    working one the error is the unsupported-type error for [uint8], the
    request stops after the bit order, and no reply is read. *)
Theorem ShiftOut_never_succeeds dataPin clockPin bitOrder val s :
  (exists e, fst (ShiftOut NewArduinoApi dataPin clockPin bitOrder val s)
             = ((-1)%Z, Some e))
  /\ (ready s = true ->
      fst (ShiftOut NewArduinoApi dataPin clockPin bitOrder val s)
      = ((-1)%Z, Some (errorString "Firmware Write: Unsupported type uint8"))
      /\ stream (snd (ShiftOut NewArduinoApi dataPin clockPin bitOrder val s))
         = stream s ++ field "A" ++ field "0" ++ field "4" ++ field "s"
           ++ field dataPin ++ field clockPin ++ field (Itoa bitOrder)
      /\ inboundOf (snd (ShiftOut NewArduinoApi dataPin clockPin bitOrder val s))
         = inboundOf s
      /\ flushes (snd (ShiftOut NewArduinoApi dataPin clockPin bitOrder val s))
         = flushes s).
Proof.
  unfold ShiftOut, CallAndReturnInt. split.
  - unfold ArduinoMethodCall.
    destruct (call_never_succeeds (Namespace NewArduinoApi) (Id NewArduinoApi)
                (prependName [Slice [Str dataPin; Str clockPin; Int bitOrder; Uint8 val]] "s")
                (Uint8 val) s) as (e & E).
    { rewrite method_flatten. reflexivity. }
    destruct (call _ _ _ s) as [[v err] s1]. cbn [fst] in E. injection E as -> ->.
    exists e. reflexivity.
  - intros Hr.
    destruct (method_aborts NewArduinoApi "s"
                [Str dataPin; Str clockPin; Int bitOrder; Uint8 val] s (Uint8 val) Hr eq_refl)
      as (s' & E & (_ & S & Q & F & _)).
    rewrite E. cbn [fst snd]. split; [reflexivity|]. split; [|split; [exact Q|lia]].
    rewrite S, methodBytes_frame by (cbn; lia). frame.
Qed.

Lemma ShiftOut_never_succeeds_witness :
  fst (ShiftOut NewArduinoApi "11" "12" MsbFirst "a"%byte (opened []))
  = ((-1)%Z, Some (errorString "Firmware Write: Unsupported type uint8")).
Proof.
  destruct (ShiftOut_never_succeeds "11" "12" MsbFirst "a"%byte (opened [])) as [_ H].
  apply H. reflexivity.
Defined.

Lemma CallAndReturnInt_reads f methodName args s z rest :
  ready s = true -> offender (filter nonNil args) = None -> inRange z ->
  inboundOf s = Token (list_byte_of_string (Itoa z)) :: rest ->
  fst (CallAndReturnInt f methodName args s) = (z, None).
Proof.
  intros Hr Ho Hz Hin. unfold CallAndReturnInt.
  destruct (method_reads f methodName args s Hr Ho) as (s' & E & _).
  rewrite E, Hin. cbn [fst]. rewrite string_of_list_byte_of_string.
  apply Atoi_Itoa. exact Hz.
Qed.

Lemma CallAndReturnInt_settled f methodName args s z rest :
  ready s = true -> offender (filter nonNil args) = None -> inRange z ->
  inboundOf s = Token (list_byte_of_string (Itoa z)) :: rest ->
  exists s',
    CallAndReturnInt f methodName args s = ((z, None), s')
    /\ settled s s' (methodBytes f methodName args) rest 0.
Proof.
  intros Hr Ho Hz Hin. unfold CallAndReturnInt.
  destruct (method_reads f methodName args s Hr Ho) as (s' & E & St & _).
  rewrite E, Hin. rewrite Hin in St. cbn [tl] in St.
  rewrite string_of_list_byte_of_string, Atoi_Itoa by exact Hz.
  exists s'. auto.
Qed.

Lemma CallAndReturnInt_fails f methodName args s e :
  snd (fst (ArduinoMethodCall f methodName [Slice args] s)) = Some e ->
  fst (CallAndReturnInt f methodName args s) = ((-1)%Z, Some e).
Proof.
  intros He. unfold CallAndReturnInt.
  destruct (ArduinoMethodCall f methodName [Slice args] s) as [[v err] s1].
  cbn [fst snd] in He. subst err. reflexivity.
Qed.

(** X6. [CallAndReturnInt] decodes what [Itoa] encodes: when the reply
    line is the decimal text of an [int], that number is returned with no
    error; when the call fails, -1 is returned with the call's error. *)
Theorem CallAndReturnInt_decodes f methodName args s :
  (forall z rest,
     ready s = true -> offender (filter nonNil args) = None -> inRange z ->
     inboundOf s = Token (list_byte_of_string (Itoa z)) :: rest ->
     fst (CallAndReturnInt f methodName args s) = (z, None))
  /\ (forall e,
        snd (fst (ArduinoMethodCall f methodName [Slice args] s)) = Some e ->
        fst (CallAndReturnInt f methodName args s) = ((-1)%Z, Some e)).
Proof.
  split.
  - intros z rest. apply CallAndReturnInt_reads.
  - apply CallAndReturnInt_fails.
Qed.

Lemma CallAndReturnInt_decodes_witness :
  fst (DigitalRead NewArduinoApi "7" (opened [Token (list_byte_of_string (Itoa (-1023)))]))
  = ((-1023)%Z, None)
  /\ fst (Millis NewArduinoApi (NewFirmwareConnection (mkConfig "fake" 9600)))
     = ((-1)%Z, Some portClosed).
Proof.
  split.
  - destruct (CallAndReturnInt_decodes NewArduinoApi "r" [Str "7"]
                (opened [Token (list_byte_of_string (Itoa (-1023)))])) as [H _].
    apply (H (-1023)%Z []); try reflexivity. unfold inRange. lia.
  - destruct (CallAndReturnInt_decodes NewArduinoApi "m" []
                (NewFirmwareConnection (mkConfig "fake" 9600))) as [_ H].
    apply (H portClosed). reflexivity.
Defined.

(** ** The I2C facade *)

Lemma begin_reads m s line rest :
  ready s = true -> busInitialized m = false ->
  inboundOf s = Token line :: rest ->
  exists s',
    begin m s = (None, s')
    /\ settled s s' (methodBytes (wire m) "begin" [Value (Address m)]) rest 0.
Proof.
  intros Hr Hb Hin. unfold begin, Begin, CallAndReturnNothing. rewrite Hb. cbn [negb].
  destruct (method_reads (wire m) "begin" [Value (Address m)] s Hr) as (s' & E & St & _).
  { destruct (Address m); reflexivity. }
  rewrite E, Hin. rewrite Hin in St. exists s'. auto.
Qed.

Lemma BeginTransmission_reads w address s line rest :
  ready s = true -> inboundOf s = Token line :: rest ->
  exists s',
    BeginTransmission w address s = (None, s')
    /\ settled s s' (methodBytes w "beginTransmission" [Int address]) rest 0.
Proof.
  intros Hr Hin. unfold BeginTransmission, classCall.
  destruct (method_reads w "beginTransmission" [Value (Some address)] s Hr eq_refl)
    as (s' & E & St & _).
  rewrite E, Hin. rewrite Hin in St. exists s'. auto.
Qed.

(** X7. [Send] of an empty buffer makes three calls, [begin],
    [beginTransmission] with the address and [endTransmission] with
    [True], and turns the status the firmware answers the last one with
    into its result: nil for 0, the communication error carrying the
    status for any other number. *)
Theorem Send_reports_status m address s l1 l2 c rest :
  ready s = true -> busInitialized m = false -> inRange c ->
  inboundOf s = Token l1 :: Token l2 :: Token (list_byte_of_string (Itoa c)) :: rest ->
  fst (Send m address [] s)
  = (if (c =? 0)%Z then None else Some (i2cCommunicationError c))
  /\ stream (snd (Send m address [] s))
     = stream s ++ methodBytes (wire m) "begin" [Value (Address m)]
       ++ methodBytes (wire m) "beginTransmission" [Int address]
       ++ methodBytes (wire m) "endTransmission" [Bool true]
  /\ inboundOf (snd (Send m address [] s)) = rest.
Proof.
  intros Hr Hb Hc Hin. unfold Send.
  destruct (begin_reads m s l1 _ Hr Hb Hin) as (s1 & E1 & St1). rewrite E1.
  pose proof St1 as (R1 & _ & Q1 & _).
  destruct (BeginTransmission_reads (wire m) address s1 l2 _ R1 Q1) as (s2 & E2 & St2).
  rewrite E2. pose proof St2 as (R2 & _ & Q2 & _).
  cbn [wireWrite wireWriteFrom]. unfold EndTransmission, CallAndReturnInt.
  destruct (method_reads (wire m) "endTransmission" [Bool true] s2 R2 eq_refl)
    as (s3 & E3 & St3 & _).
  rewrite E3, Q2 in *. cbn [tl] in St3.
  rewrite string_of_list_byte_of_string, Atoi_Itoa by exact Hc.
  pose proof (settled_trans _ _ _ _ _ _ _ _ _ (settled_trans _ _ _ _ _ _ _ _ _ St1 St2) St3)
    as (_ & S & Q & _).
  rewrite <- app_assoc in S.
  destruct (c =? 0)%Z; cbn [negb fst snd]; auto.
Qed.

Lemma Send_reports_status_witness :
  fst (Send (NewI2cMaster NewWire) 8%Z []
         (opened [Token (list_byte_of_string "0"); Token (list_byte_of_string "0");
                  Token (list_byte_of_string (Itoa 2))]))
  = Some (i2cCommunicationError 2).
Proof.
  apply (Send_reports_status (NewI2cMaster NewWire) 8%Z
           (opened [Token (list_byte_of_string "0"); Token (list_byte_of_string "0");
                    Token (list_byte_of_string (Itoa 2))])
           (list_byte_of_string "0") (list_byte_of_string "0") 2%Z []);
    try reflexivity.
  unfold inRange. lia.
Defined.

Lemma write_byte_fails w v s :
  exists e, CallAndReturnNothing w "write" [Uint8 v] s = (Some e, snd (CallAndReturnNothing w "write" [Uint8 v] s)).
Proof.
  unfold CallAndReturnNothing, ArduinoMethodCall.
  destruct (call_never_succeeds (Namespace w) (Id w)
              (prependName [Slice [Uint8 v]] "write") (Uint8 v) s) as (e & E).
  { rewrite method_flatten. reflexivity. }
  destruct (call _ _ _ s) as [[r err] s1]. cbn [fst] in E. injection E as -> ->.
  exists e. reflexivity.
Qed.



(** X9. The message of a communication error exists for the statuses 1
    to 4 only: for any other status, taking the message indexes the table
    out of range. *)
Theorem i2cErrorString_bounds d :
  (exists msg, i2cErrorString d = Returns msg) <-> (1 <= d <= 4)%Z.
Proof.
  unfold i2cErrorString.
  destruct (d - 1)%Z as [|[[p|p|]|[p|p|]|]|p] eqn:E; split;
    try (intros [msg H]; discriminate H); try lia;
    try (intros _; eexists; reflexivity).
Qed.

(** X10. [Request] sizes its buffer with what [requestFrom] returned
    before any error is looked at: when that call fails, the size is -1
    and allocating the buffer panics; so does a negative count in the
    reply. *)
Theorem Request_panics_on_failed_requestFrom m address quantity s s1 :
  begin m s = (None, s1) ->
  (forall e,
     snd (fst (ArduinoMethodCall (wire m) "requestFrom"
                 [Slice [Int address; Int quantity; Bool true]] s1)) = Some e ->
     fst (Request m address quantity s)
     = Panics "runtime error: makeslice: len out of range")
  /\ (forall n rest,
        ready s1 = true -> inRange n -> (n < 0)%Z ->
        inboundOf s1 = Token (list_byte_of_string (Itoa n)) :: rest ->
        fst (Request m address quantity s)
        = Panics "runtime error: makeslice: len out of range").
Proof.
  intros Hb. unfold Request. rewrite Hb. unfold RequestFrom. split.
  - intros e He.
    pose proof (CallAndReturnInt_fails (wire m) "requestFrom"
                [Int address; Int quantity; Bool true] s1 e He) as E.
    cbn [Value] in *.
    destruct (CallAndReturnInt (wire m) "requestFrom"
                [Int address; Int quantity; Bool true] s1) as [[n err] s2].
    cbn [fst] in E. injection E as -> ->. reflexivity.
  - intros n rest Hr Hn Hneg Hin. cbn [Value].
    pose proof (CallAndReturnInt_reads (wire m) "requestFrom"
                  [Int address; Int quantity; Bool true] s1 n rest Hr eq_refl Hn Hin) as E.
    destruct (CallAndReturnInt (wire m) "requestFrom"
                [Int address; Int quantity; Bool true] s1) as [[n' err] s2].
    cbn [fst] in E. injection E as -> ->. unfold makeBytes.
    apply Z.ltb_lt in Hneg. rewrite Hneg. reflexivity.
Qed.

Lemma Request_panics_on_failed_requestFrom_witness :
  fst (Request (NewI2cMaster NewWire) 8%Z 2%Z (opened [Token (list_byte_of_string "0")]))
  = Panics "runtime error: makeslice: len out of range".
Proof.
  destruct (Request_panics_on_failed_requestFrom (NewI2cMaster NewWire) 8%Z 2%Z
              (opened [Token (list_byte_of_string "0")])
              (snd (begin (NewI2cMaster NewWire) (opened [Token (list_byte_of_string "0")])))
              eq_refl) as [H _].
  apply (H (SerialTimeoutError "fake ReadLine timeout")). reflexivity.
Defined.

Lemma CallAndReturnByte_no_error f methodName args s v e :
  fst (CallAndReturnByte f methodName args s) <> Returns (v, Some e).
Proof.
  unfold CallAndReturnByte, ArduinoMethodCall.
  pose proof (call_error (Namespace f) (Id f) (prependName [Slice args] methodName) s) as Herr.
  destruct (call (Namespace f) (Id f) (prependName [Slice args] methodName) s)
    as [[reply err] s1].
  cbn [fst snd] in *.
  destruct (list_byte_of_string reply) as [|s0 rest] eqn:E; [discriminate|].
  cbn [fst]. intros H. injection H as _ ->.
  rewrite (Herr e eq_refl) in E. discriminate.
Qed.

Lemma CallAndReturnByte_reads f methodName args s line rest :
  ready s = true -> offender (filter nonNil args) = None ->
  nonEmpty line = true -> inboundOf s = Token line :: rest ->
  exists s',
    CallAndReturnByte f methodName args s = (Returns (firstByte line, None), s')
    /\ settled s s' (methodBytes f methodName args) rest 0.
Proof.
  intros Hr Ho Hne Hin. unfold CallAndReturnByte.
  destruct (method_reads f methodName args s Hr Ho) as (s' & E & St & _).
  rewrite E, Hin. rewrite Hin in St. cbn [tl] in St.
  rewrite list_byte_of_string_of_list_byte.
  destruct line as [|c line]; [discriminate|]. exists s'. auto.
Qed.

Lemma setByte_at pre x post v :
  setByte (pre ++ x :: post) (List.length pre) v = pre ++ v :: post.
Proof. induction pre as [|a pre IH]; cbn; [reflexivity|]. rewrite IH. reflexivity. Qed.

Lemma wireReadLoop_no_error w remaining : forall i b s buf n e,
  fst (wireReadLoop w remaining i b s) <> Returns (buf, (n, Some e)).
Proof.
  induction remaining as [|k IH]; intros i b s buf' n e; cbn [wireReadLoop].
  - discriminate.
  - pose proof (CallAndReturnByte_no_error w "read" [] s) as Hb.
    destruct (CallAndReturnByte w "read" [] s) as [[[v [e'|]]|msg] s1]; cbn [fst] in *.
    + elim (Hb v e'). reflexivity.
    + apply IH.
    + discriminate.
Qed.

Lemma settled_refl s : ready s = true -> settled s s [] (inboundOf s) 0.
Proof.
  intros Hr. repeat split; auto. rewrite app_nil_r. reflexivity.
Qed.

Lemma wireReadLoop_reads w lines : forall pre todo s rest,
  ready s = true -> forallb nonEmpty lines = true ->
  List.length todo = List.length lines ->
  inboundOf s = map Token lines ++ rest ->
  exists s',
    wireReadLoop w (List.length lines) (List.length pre) (pre ++ todo) s
    = (Returns (pre ++ map firstByte lines,
                (Z.of_nat (List.length pre + List.length lines), None)), s')
    /\ settled s s' (readBytes w (List.length lines)) rest 0.
Proof.
  induction lines as [|line lines IH]; intros pre todo s rest Hr Hne Hlen Hin.
  - destruct todo; [|discriminate]. cbn [List.length wireReadLoop map readBytes].
    rewrite !app_nil_r, Nat.add_0_r. exists s. split; [reflexivity|].
    cbn [map List.app] in Hin. rewrite <- Hin. apply settled_refl. exact Hr.
  - destruct todo as [|x todo]; [discriminate|].
    cbn [forallb] in Hne. apply andb_true_iff in Hne. destruct Hne as [Hl Hne].
    cbn [List.length wireReadLoop map readBytes].
    destruct (CallAndReturnByte_reads w "read" [] s line (map Token lines ++ rest)
                Hr eq_refl Hl Hin) as (s1 & E1 & St1).
    rewrite E1, setByte_at. pose proof St1 as (R1 & _ & Q1 & _).
    destruct (IH (pre ++ [firstByte line]) todo s1 rest R1 Hne
                ltac:(cbn in Hlen; lia) Q1) as (s2 & E2 & St2).
    rewrite length_app in E2. cbn [List.length] in E2.
    replace (List.length pre + 1) with (S (List.length pre)) in E2 by lia.
    rewrite <- app_assoc in E2. cbn [List.app] in E2. rewrite E2.
    exists s2. split.
    + rewrite <- app_assoc. cbn [List.app].
      replace (S (List.length pre) + List.length lines)
        with (List.length pre + S (List.length lines)) by lia.
      reflexivity.
    + exact (settled_trans _ _ _ _ _ _ _ _ _ St1 St2).
Qed.

Lemma wireRead_reads w b s lines rest :
  ready s = true -> forallb nonEmpty lines = true ->
  List.length b = List.length lines ->
  inboundOf s = map Token lines ++ rest ->
  fst (wireRead w b s)
  = Returns (map firstByte lines, (Z.of_nat (List.length b), None))
  /\ stream (snd (wireRead w b s)) = stream s ++ readBytes w (List.length b)
  /\ inboundOf (snd (wireRead w b s)) = rest.
Proof.
  intros Hr Hne Hlen Hin. unfold wireRead. rewrite Hlen.
  destruct (wireReadLoop_reads w lines [] b s rest Hr Hne Hlen Hin)
    as (s' & E & (_ & S & Q & _)).
  cbn [List.length List.app] in E. rewrite E. cbn [fst snd]. auto.
Qed.

(** X11. [wire.Read] never returns an error: a read that fails panics in
    [CallAndReturnByte] instead. When every reply line is non-empty it
    fills the buffer with the first byte of each of the next [len(b)]
    lines, one [read] call per byte, and returns [len(b)]. *)
Theorem wire_Read_fills w b s :
  (forall buf n e, fst (wireRead w b s) <> Returns (buf, (n, Some e)))
  /\ (forall lines rest,
        ready s = true -> forallb nonEmpty lines = true ->
        List.length b = List.length lines ->
        inboundOf s = map Token lines ++ rest ->
        fst (wireRead w b s)
        = Returns (map firstByte lines, (Z.of_nat (List.length b), None))
        /\ stream (snd (wireRead w b s)) = stream s ++ readBytes w (List.length b)
        /\ inboundOf (snd (wireRead w b s)) = rest).
Proof.
  split; [intros buf' n e; apply wireReadLoop_no_error|].
  intros lines rest. apply wireRead_reads.
Qed.

Lemma wire_Read_fills_witness :
  fst (wireRead NewWire ["000"%byte; "000"%byte]
         (opened [Token (list_byte_of_string "a"); Token (list_byte_of_string "bc")]))
  = Returns (["a"%byte; "b"%byte], (2%Z, None)).
Proof.
  destruct (wire_Read_fills NewWire ["000"%byte; "000"%byte]
              (opened [Token (list_byte_of_string "a"); Token (list_byte_of_string "bc")]))
    as [_ H].
  apply (H [list_byte_of_string "a"; list_byte_of_string "bc"] []); reflexivity.
Defined.

(** X12. [Request] returns as many bytes as the firmware announced in
    its answer to [requestFrom], whatever quantity was asked for: the
    first byte of each of the following reply lines, in order. *)
Theorem Request_returns_announced m address quantity s l0 lines rest :
  ready s = true -> busInitialized m = false ->
  forallb nonEmpty lines = true ->
  (Z.of_nat (List.length lines) < 2 ^ 63)%Z ->
  inboundOf s
  = Token l0 :: Token (list_byte_of_string (Itoa (Z.of_nat (List.length lines))))
    :: map Token lines ++ rest ->
  fst (Request m address quantity s) = Returns (map firstByte lines, None)
  /\ inboundOf (snd (Request m address quantity s)) = rest.
Proof.
  intros Hr Hb Hne Hlen Hin. unfold Request.
  destruct (begin_reads m s l0 _ Hr Hb Hin) as (s1 & E1 & (R1 & _ & Q1 & _)).
  rewrite E1. unfold RequestFrom.
  destruct (CallAndReturnInt_settled (wire m) "requestFrom"
              [Value (Some address); Int quantity; Bool true] s1
              (Z.of_nat (List.length lines)) (map Token lines ++ rest) R1 eq_refl
              ltac:(unfold inRange; lia) Q1) as (s2 & E2 & (R2 & _ & Q2 & _)).
  rewrite E2. unfold makeBytes.
  replace (Z.of_nat (List.length lines) <? 0)%Z with false
    by (symmetry; apply Z.ltb_ge; lia).
  rewrite Nat2Z.id.
  destruct (wireRead_reads (wire m) (repeat "000"%byte (List.length lines)) s2
              lines rest R2 Hne (repeat_length _ _) Q2) as (E3 & _ & Q3).
  destruct (wireRead (wire m) (repeat "000"%byte (List.length lines)) s2) as [r s3].
  cbn [fst snd] in E3, Q3. subst r. cbn [fst snd]. auto.
Qed.

Lemma Request_returns_announced_witness :
  fst (Request (NewI2cMaster NewWire) 8%Z 6%Z
         (opened [Token (list_byte_of_string "0"); Token (list_byte_of_string "2");
                  Token (list_byte_of_string "a"); Token (list_byte_of_string "bc")]))
  = Returns (["a"%byte; "b"%byte], None).
Proof.
  apply (Request_returns_announced (NewI2cMaster NewWire) 8%Z 6%Z
           (opened [Token (list_byte_of_string "0"); Token (list_byte_of_string "2");
                    Token (list_byte_of_string "a"); Token (list_byte_of_string "bc")])
           (list_byte_of_string "0")
           [list_byte_of_string "a"; list_byte_of_string "bc"] []);
    reflexivity.
Defined.

Lemma scanLoop_found m remaining : forall i addrs s,
  (snd (fst (scanLoop m remaining i addrs s)) <> None ->
   fst (fst (scanLoop m remaining i addrs s)) = [])
  /\ (snd (fst (scanLoop m remaining i addrs s)) = None ->
      exists found,
        fst (fst (scanLoop m remaining i addrs s)) = addrs ++ found
        /\ increasing found
        /\ Forall (fun a => (i <= a < i + Z.of_nat remaining)%Z) found).
Proof.
  induction remaining as [|k IH]; intros i addrs s; cbn [scanLoop].
  - cbn [fst snd]. split; [intros H; elim H; reflexivity|].
    intros _. exists []. rewrite app_nil_r. repeat split. constructor.
  - destruct (Send m i [] s) as [[e|] s1].
    + destruct e as [msg|msg|c|f n msg];
        try (cbn [fst snd]; split; [reflexivity|discriminate]).
      destruct (IH (i + 1)%Z addrs s1) as [IH1 IH2]. split; [exact IH1|].
      intros Hn. destruct (IH2 Hn) as (found & E & Hinc & Hall).
      exists found. repeat split; auto.
      eapply Forall_impl; [|exact Hall]. cbn beta. intros a Ha. lia.
    + destruct (IH (i + 1)%Z (addrs ++ [i]) s1) as [IH1 IH2]. split; [exact IH1|].
      intros Hn. destruct (IH2 Hn) as (found & E & Hinc & Hall).
      exists (i :: found). rewrite E, <- app_assoc. repeat split; auto.
      * intros y Hy. rewrite Forall_forall in Hall. specialize (Hall y Hy). lia.
      * constructor; [lia|].
        eapply Forall_impl; [|exact Hall]. cbn beta. intros a Ha. lia.
Qed.

(** X13. [Scan] probes the addresses 1 to 128 in order: what it returns
    is strictly increasing and within 1..128, and when it returns an error
    it returns no address at all. *)
Theorem Scan_addresses m s :
  (snd (fst (Scan m s)) <> None -> fst (fst (Scan m s)) = [])
  /\ increasing (fst (fst (Scan m s)))
  /\ Forall (fun a => (1 <= a <= 128)%Z) (fst (fst (Scan m s))).
Proof.
  unfold Scan. destruct (begin m s) as [[e|] s1].
  - cbn [fst snd]. repeat split. constructor.
  - destruct (scanLoop_found m 128 1%Z [] s1) as [H1 H2].
    split; [exact H1|].
    destruct (snd (fst (scanLoop m 128 1%Z [] s1))) as [e|] eqn:E.
    + rewrite H1 by discriminate. split; [exact I|constructor].
    + destruct (H2 eq_refl) as (found & -> & Hinc & Hall). cbn [List.app].
      split; [exact Hinc|]. eapply Forall_impl; [|exact Hall].
      cbn beta. intros a Ha. lia.
Qed.

(** ** The transport after a failure *)

Lemma setIO_self s p : port s = Some p -> setIO (readWriter s) p s = s.
Proof. destruct s; cbn. intros ->. reflexivity. Qed.

Lemma bufioWrite_pending b w p e :
  sticky w = Some e -> bufioWrite b w p = (Some e, w, p).
Proof.
  intros Hs. unfold bufioWrite. cbn [bufioWriteLoop]. rewrite Hs.
  cbn [isNil]. rewrite andb_false_r. rewrite Hs. reflexivity.
Qed.

Lemma Write_pending b s p e :
  port s = Some p -> sticky (readWriter s) = Some e -> Write b s = (Some e, s).
Proof.
  intros Hp Hs. unfold Write. rewrite Hp, (bufioWrite_pending b _ p e Hs).
  rewrite (setIO_self s p Hp). reflexivity.
Qed.

(** X14. Once a device write has failed, the error stays with the
    connection: every later [Write], [Flush] and call returns that same
    error and changes nothing, whatever the arguments; [Open] starts over
    with a fresh buffer and no error pending. *)
Theorem pending_error_persists s p e :
  port s = Some p -> sticky (readWriter s) = Some e ->
  (forall b, Write b s = (Some e, s))
  /\ Flush s = (Some e, s)
  /\ (forall namespace id args, call namespace id args s = (("", Some e), s))
  /\ (forall p', works p' = true ->
        ready (snd (Open (inr p') s)) = true
        /\ stream (snd (Open (inr p') s)) = sent p').
Proof.
  intros Hp Hs. split; [|split; [|split]].
  - intros b. apply (Write_pending b s p e); assumption.
  - unfold Flush, bufioFlush. rewrite Hp, Hs. rewrite (setIO_self s p Hp). reflexivity.
  - intros namespace id args. unfold call, write.
    rewrite (Write_pending _ s p e Hp Hs). reflexivity.
  - intros p' Hw. unfold Open, portFlush, ready, stream, works in *. cbn.
    rewrite Hw, app_nil_r. auto.
Qed.

Lemma pending_error_persists_witness :
  call "A" 0 [Str "m"] (snd (call "A" 0 [Str "m"] (openedOn brokenFirmware)))
  = (("", Some (errorString "input/output error")),
     snd (call "A" 0 [Str "m"] (openedOn brokenFirmware))).
Proof.
  destruct (pending_error_persists (snd (call "A" 0 [Str "m"] (openedOn brokenFirmware)))
              (mkPort [] 1 false (Some (errorString "input/output error")) None None [])
              (errorString "input/output error") eq_refl eq_refl) as (_ & _ & H & _).
  apply H.
Defined.

Lemma field_nonempty str : List.length (field str) <> 0.
Proof. rewrite field_terminated, length_app. cbn. lia. Qed.

Lemma callBytes_nonempty namespace id args :
  List.length (callBytes namespace id args) <> 0.
Proof.
  unfold callBytes, header. rewrite !length_app.
  pose proof (field_nonempty namespace). lia.
Qed.

(** X15. A device that refuses writes is found out at [Flush]: a call
    whose request fits the buffer returns the device's own error, unchanged,
    without reading a reply; nothing has reached the device, the request
    stays in the buffer, and the error is now pending on the connection. *)
Theorem device_fault_surfaces namespace id args s p e :
  port s = Some p -> sticky (readWriter s) = None ->
  released p = false -> writeFault p = Some e ->
  offender (flatten args) = None ->
  List.length (buf (readWriter s)) + List.length (callBytes namespace id args)
  <= defaultBufSize ->
  call namespace id args s
  = (("", Some e),
     setIO (mkWriter (buf (readWriter s) ++ callBytes namespace id args) (Some e)) p s).
Proof.
  intros Hp Hs Hrel Hf Ho Hfit.
  change (call namespace id args s)
    with (call (jNamespace (mkJob namespace id args 0)) (jId (mkJob namespace id args 0))
            (jArgs (mkJob namespace id args 0)) s).
  rewrite call_request. cbn [finish].
  destruct (request_encodable namespace id args) as [Ro Re].
  rewrite (writeEach_fits p _ s (buf (readWriter s)) Hp).
  - rewrite Ro, Ho, Re. cbn [option_map].
    unfold Flush, bufioFlush. cbn [port setIO readWriter sticky buf].
    pose proof (callBytes_nonempty namespace id args) as Hne.
    assert (E : (List.length (buf (readWriter s) ++ callBytes namespace id args) =? 0) = false).
    { apply Nat.eqb_neq. rewrite length_app. lia. }
    rewrite E. unfold portWrite. rewrite Hrel, Hf. cbn [isNil].
    rewrite andb_false_r. cbn [skipn]. reflexivity.
  - destruct (readWriter s); cbn in *. subst. reflexivity.
  - rewrite Re. exact Hfit.
Qed.

Lemma device_fault_surfaces_witness :
  call "A" 0 [Str "m"] (openedOn brokenFirmware)
  = (("", Some (errorString "input/output error")),
     setIO (mkWriter (buf (readWriter (openedOn brokenFirmware))
                      ++ callBytes "A" 0 [Str "m"])
              (Some (errorString "input/output error")))
       (mkPort [] 1 false (Some (errorString "input/output error")) None None [])
       (openedOn brokenFirmware)).
Proof.
  apply (device_fault_surfaces "A" 0%Z [Str "m"] (openedOn brokenFirmware)
           (mkPort [] 1 false (Some (errorString "input/output error")) None None [])
           (errorString "input/output error")); try reflexivity.
  apply Nat.leb_le. reflexivity.
Defined.

(** X16. On an open connection [ReadLine] flushes the port exactly when
    it returns an error: a line is returned as it is, with no flush; a
    scan error is returned wrapped in a message naming the port, and a
    quiet line as the timeout error, each with one flush. In every case
    one outcome of the line is used up. *)
Theorem ReadLine_flushes_on_error s p :
  port s = Some p ->
  fst (ReadLine s)
  = (match inbound p with
     | Token line :: _ => (line, None)
     | ScanErr msg :: _ =>
         ([], Some (errorString ("error scanning bytes from port "
                                 ++ Name (SerialConfig s) ++ LF ++ ": " ++ msg)))
     | _ => ([], Some (timeoutOf s))
     end)
  /\ flushes (snd (ReadLine s))
     = (if isNil (snd (fst (ReadLine s))) then flushed p else S (flushed p))
  /\ inboundOf (snd (ReadLine s)) = tl (inbound p)
  /\ stream (snd (ReadLine s)) = stream s.
Proof.
  intros Hp. destruct (ReadLine_keeps s) as [_ Hst].
  split; [|split; [|split; [|exact Hst]]];
    unfold ReadLine, portScan, portFlush, flushes, inboundOf, timeoutOf;
    rewrite Hp; destruct (inbound p) as [|[line|msg|] rest] eqn:Hi; cbn; auto.
Qed.

Lemma ReadLine_flushes_on_error_witness :
  fst (ReadLine (opened [ScanErr "EOF"]))
  = ([], Some (errorString ("error scanning bytes from port " ++ "fake" ++ LF ++ ": " ++ "EOF")))
  /\ flushes (snd (ReadLine (opened [ScanErr "EOF"]))) = 2.
Proof.
  destruct (ReadLine_flushes_on_error (opened [ScanErr "EOF"])
              (mkPort [] 1 false None None None [ScanErr "EOF"]) eq_refl) as (E & F & _).
  split; [exact E|exact F].
Defined.

(** X17. The bytes of an aborted call are not taken back: when a call
    stops at an unsupported argument and the next call on the connection
    goes through, the device receives the torn request and then the whole
    next one, with nothing left in the buffer. *)
Theorem aborted_bytes_are_delivered ns1 id1 args1 ns2 id2 args2 s v :
  ready s = true ->
  offender (flatten args1) = Some v -> offender (flatten args2) = None ->
  fst (call ns1 id1 args1 s) = ("", Some (unsupported v))
  /\ stream (snd (call ns2 id2 args2 (snd (call ns1 id1 args1 s))))
     = stream s ++ (header ns1 id1 args1 ++ fields (encodable (flatten args1)))
       ++ (header ns2 id2 args2 ++ fields (flatten args2))
  /\ buf (readWriter (snd (call ns2 id2 args2 (snd (call ns1 id1 args1 s))))) = [].
Proof.
  intros Hr Ho1 Ho2.
  destruct (call_aborts ns1 id1 args1 s v Hr Ho1) as (s1 & E1 & (R1 & S1 & _)).
  rewrite E1. cbn [fst snd]. split; [reflexivity|].
  destruct (call_reads ns2 id2 args2 s1 R1 Ho2) as (s2 & E2 & (_ & S2 & _) & B2).
  rewrite E2. cbn [snd]. split; [|exact B2].
  rewrite S2, S1, <- app_assoc. unfold callBytes.
  assert (He : encodable (flatten args2) = flatten args2).
  { clear -Ho2. induction (flatten args2) as [|u vs IH]; [reflexivity|].
    cbn in *. destruct (supported u); [|discriminate]. rewrite IH by exact Ho2. reflexivity. }
  rewrite He. reflexivity.
Qed.

Lemma aborted_bytes_are_delivered_witness :
  buf (readWriter (snd (call "A" 0 [Str "dw"; Str "13"]
                          (snd (call "A" 0 [Str "s"; Uint8 "a"%byte] (opened []))))))
  = [].
Proof.
  apply (aborted_bytes_are_delivered "A" 0%Z [Str "s"; Uint8 "a"%byte]
           "A" 0%Z [Str "dw"; Str "13"] (opened []) (Uint8 "a"%byte)); reflexivity.
Defined.

(** X18. [Close] does not stop the connection from accepting writes: the
    port handle stays set and the write buffer is kept, so after [Close] a
    [Write] that fits the buffer still returns nil, and a never-opened
    connection is left as it is. *)
Theorem Close_keeps_accepting s :
  (port s = None -> Close s = (None, s))
  /\ (forall p b,
        port s = Some p -> sticky (readWriter s) = None ->
        List.length (buf (readWriter s)) + List.length b <= defaultBufSize ->
        readWriter (snd (Close s)) = readWriter s
        /\ fst (Write b (snd (Close s))) = None
        /\ buf (readWriter (snd (Write b (snd (Close s))))) = buf (readWriter s) ++ b).
Proof.
  split.
  - intros Hp. unfold Close. rewrite Hp. reflexivity.
  - intros p b Hp Hs Hfit. unfold Close. rewrite Hp.
    destruct (portClose p) as [err p1]. cbn [snd setPort readWriter].
    split; [reflexivity|].
    assert (Ew : readWriter s = mkWriter (buf (readWriter s)) None).
    { destruct (readWriter s); cbn in *. subst. reflexivity. }
    rewrite (Write_fits (setPort p1 s) p1 (buf (readWriter s)) b eq_refl Ew Hfit). auto.
Qed.

Lemma Close_keeps_accepting_witness :
  fst (Write ["x"%byte] (snd (Close (opened [])))) = None
  /\ buf (readWriter (snd (Write ["x"%byte] (snd (Close (opened []))))))
     = buf (readWriter (opened [])) ++ ["x"%byte].
Proof.
  destruct (Close_keeps_accepting (opened [])) as [_ H].
  destruct (H (mkPort [] 1 false None None None []) ["x"%byte] eq_refl eq_refl)
    as (_ & E & B).
  - apply Nat.leb_le. reflexivity.
  - split; [exact E|exact B].
Defined.

(** X19. [Receive] checks the error of [available] before it sizes the
    buffer, so a failed call is returned as an error; when the firmware
    announces [n] bytes it reads [n] reply lines, drops them and returns
    nil. *)
Theorem Receive_reads_and_drops sl s s1 :
  begin sl s = (None, s1) ->
  (forall e,
     snd (fst (ArduinoMethodCall (wire sl) "available" [Slice []] s1)) = Some e ->
     fst (Receive sl s) = Returns (Some e))
  /\ (forall lines rest,
        ready s1 = true -> forallb nonEmpty lines = true ->
        (Z.of_nat (List.length lines) < 2 ^ 63)%Z ->
        inboundOf s1
        = Token (list_byte_of_string (Itoa (Z.of_nat (List.length lines))))
          :: map Token lines ++ rest ->
        fst (Receive sl s) = Returns None
        /\ inboundOf (snd (Receive sl s)) = rest).
Proof.
  intros Hb. unfold Receive. rewrite Hb. unfold wireAvailable. split.
  - intros e He.
    pose proof (CallAndReturnInt_fails (wire sl) "available" [] s1 e He) as E.
    destruct (CallAndReturnInt (wire sl) "available" [] s1) as [[n err] s2].
    cbn [fst] in E. injection E as -> ->. reflexivity.
  - intros lines rest Hr Hne Hlen Hin.
    destruct (CallAndReturnInt_settled (wire sl) "available" [] s1
                (Z.of_nat (List.length lines)) (map Token lines ++ rest) Hr eq_refl
                ltac:(unfold inRange; lia) Hin) as (s2 & E2 & (R2 & _ & Q2 & _)).
    rewrite E2. unfold makeBytes.
    replace (Z.of_nat (List.length lines) <? 0)%Z with false
      by (symmetry; apply Z.ltb_ge; lia).
    rewrite Nat2Z.id.
    destruct (wireRead_reads (wire sl) (repeat "000"%byte (List.length lines)) s2
                lines rest R2 Hne (repeat_length _ _) Q2) as (E3 & _ & Q3).
    destruct (wireRead (wire sl) (repeat "000"%byte (List.length lines)) s2) as [r s3].
    cbn [fst snd] in E3, Q3. subst r. cbn [fst snd]. auto.
Qed.

Lemma Receive_reads_and_drops_witness :
  fst (Receive (NewI2cSlave NewWire 9%Z)
         (opened [Token (list_byte_of_string "0"); Token (list_byte_of_string "1");
                  Token (list_byte_of_string "a")]))
  = Returns None.
Proof.
  destruct (Receive_reads_and_drops (NewI2cSlave NewWire 9%Z)
              (opened [Token (list_byte_of_string "0"); Token (list_byte_of_string "1");
                       Token (list_byte_of_string "a")])
              (snd (begin (NewI2cSlave NewWire 9%Z)
                      (opened [Token (list_byte_of_string "0");
                               Token (list_byte_of_string "1");
                               Token (list_byte_of_string "a")])))
              eq_refl) as [_ H].
  apply (H [list_byte_of_string "a"] []); reflexivity.
Defined.

(** X20. [I2CSlave.Write] cannot send a byte either: with a non-empty
    buffer it returns an error on every connection, from [begin] or from
    the first byte, which has no encoding. *)
Theorem slaveWrite_never_succeeds sl v data s :
  exists n e, fst (slaveWrite sl (v :: data) s) = (n, Some e).
Proof.
  unfold slaveWrite. destruct (begin sl s) as [[e|] s1].
  - exists 0%Z, e. reflexivity.
  - unfold wireWrite. cbn [wireWriteFrom].
    destruct (write_byte_fails (wire sl) v s1) as (e & E). rewrite E.
    exists 0%Z, e. reflexivity.
Qed.

(** X21. The requests of the pin methods on a working connection, after
    [A] and [0]: [PinMode] sends 2, [pm], the pin and the mode;
    [DigitalRead] 1, [r] and the pin; [AnalogRead] 1, [a] and the pin;
    [PulseIn] 2, [pi], the pin and the value; [Millis] 0 and [m]. *)
Theorem ArduinoApi_frames s pin val :
  ready s = true ->
  stream (snd (PinMode NewArduinoApi pin val s))
  = stream s ++ field "A" ++ field "0" ++ field "2" ++ field "pm"
    ++ field pin ++ field (Itoa val)
  /\ stream (snd (DigitalRead NewArduinoApi pin s))
     = stream s ++ field "A" ++ field "0" ++ field "1" ++ field "r" ++ field pin
  /\ stream (snd (AnalogRead NewArduinoApi pin s))
     = stream s ++ field "A" ++ field "0" ++ field "1" ++ field "a" ++ field pin
  /\ stream (snd (PulseIn NewArduinoApi pin val s))
     = stream s ++ field "A" ++ field "0" ++ field "2" ++ field "pi"
       ++ field pin ++ field (Itoa val)
  /\ stream (snd (Millis NewArduinoApi s))
     = stream s ++ field "A" ++ field "0" ++ field "0" ++ field "m".
Proof.
  intros Hr.
  assert (HN : forall name args,
             stream (snd (CallAndReturnNothing NewArduinoApi name args s))
             = stream (snd (ArduinoMethodCall NewArduinoApi name [Slice args] s))).
  { intros name args. unfold CallAndReturnNothing.
    destruct (ArduinoMethodCall NewArduinoApi name [Slice args] s) as [[v e] s1].
    reflexivity. }
  assert (HI : forall name args,
             stream (snd (CallAndReturnInt NewArduinoApi name args s))
             = stream (snd (ArduinoMethodCall NewArduinoApi name [Slice args] s))).
  { intros name args. unfold CallAndReturnInt.
    destruct (ArduinoMethodCall NewArduinoApi name [Slice args] s) as [[v [e|]] s1];
      reflexivity. }
  unfold PinMode, DigitalRead, AnalogRead, PulseIn, Millis.
  rewrite HN, !HI. repeat split;
    (rewrite method_stream by (try exact Hr; cbn; lia)); frame.
Qed.

Lemma ArduinoApi_frames_witness :
  stream (snd (Millis NewArduinoApi (opened [])))
  = stream (opened []) ++ field "A" ++ field "0" ++ field "0" ++ field "m".
Proof.
  destruct (ArduinoApi_frames (opened []) "13" 1%Z eq_refl) as (_ & _ & _ & _ & H).
  exact H.
Defined.
